(** * config_validator.suite: a shallow embedding and its verified properties

    The development follows [src/config_validator/suite.py].  Module [Py]
    models the part of the host language the validator relies on (decoded
    values, [repr]/[str], [==], truthiness, [in], iteration, exceptions);
    module [Suite] transcribes [_check_type], [_validate_object],
    [_validate_schema], [_load_config] and [ConfigValidationSuite.validate];
    the theorems come last. *)

From Stdlib Require Import ZArith List String Ascii Bool Lia.
From Stdlib Require Import DecimalString SpecFloat.
From Stdlib Require Import Sorting.Sorted Sorting.Permutation.
Import ListNotations.

Open Scope string_scope.
Open Scope Z_scope.

(* ====================================================================== *)
(** * The host language *)
(* ====================================================================== *)

Module Py.

(** ** Exceptions

    Only the classes that can reach [suite.py] are listed.  Decoder
    failures carry their [str(exc)] text, which the facade interpolates. *)

Inductive exn : Type :=
| OSError (msg : string)             (* open() failed *)
| JSONDecodeError (msg : string)     (* json; subclass of ValueError *)
| TOMLDecodeError (msg : string)     (* tomllib; subclass of ValueError *)
| UnicodeDecodeError (msg : string)  (* text decoding; subclass of ValueError *)
| ConfigParserError (msg : string)   (* configparser.Error; subclass of Exception only *)
| ValidationError (msg : string)     (* suite.ValidationError(Exception) *)
| ValueError (msg : string)          (* raised by the host itself *)
| TypeError
| AttributeError.

Definition exn_str (e : exn) : string :=
  match e with
  | OSError m | JSONDecodeError m | TOMLDecodeError m | UnicodeDecodeError m
  | ConfigParserError m | ValidationError m | ValueError m => m
  | TypeError => "TypeError"
  | AttributeError => "AttributeError"
  end.

Definition isinstance_OSError (e : exn) : bool :=
  match e with OSError _ => true | _ => false end.

Definition isinstance_ValueError (e : exn) : bool :=
  match e with
  | JSONDecodeError _ | TOMLDecodeError _ | UnicodeDecodeError _
  | ValueError _ => true
  | _ => false
  end.

(** A computation either returns or raises. *)
Inductive res (A : Type) : Type :=
| Ok (a : A)
| Raise (e : exn).
Arguments Ok {A} a.
Arguments Raise {A} e.

Definition bind {A B : Type} (c : res A) (k : A -> res B) : res B :=
  match c with
  | Ok a => k a
  | Raise e => Raise e
  end.

Declare Scope py_scope.
Delimit Scope py_scope with py.
Notation "x <- c ;; k" := (bind c (fun x => k))
  (at level 61, c at next level, right associativity) : py_scope.
Open Scope py_scope.

(** ** Decoded values

    The tree a JSON decoder produces (and the one a schema is written in):
    [None], [bool], [int], [float], [str], [list], [dict] with [str] keys.
    A [dict] keeps insertion order, so it is an association list; its keys
    are pairwise distinct in every value a decoder builds, and a lookup
    reads the first entry.  A [str] is a sequence of code points; the model
    covers U+0000..U+00FF, one [ascii] per code point.  A [float] is an
    IEEE 754 binary64 value, [m * 2^e] with its sign.  The date and time
    objects that only the TOML decoder can produce are not part of the
    tree. *)

#[local] Set Warnings "-register-all".
Inductive value : Type :=
| PNone
| PBool (b : bool)
| PInt (z : Z)
| PFloat (f : spec_float)
| PStr (s : string)
| PList (l : list value)
| PDict (d : list (string * value)).

Definition dict := list (string * value).

(** Induction over the tree, with the elements of a container covered. *)
Section ValueInduction.
Variable P : value -> Prop.
Hypothesis HNone : P PNone.
Hypothesis HBool : forall b, P (PBool b).
Hypothesis HInt : forall z, P (PInt z).
Hypothesis HFloat : forall f, P (PFloat f).
Hypothesis HStr : forall s, P (PStr s).
Hypothesis HList : forall l, Forall P l -> P (PList l).
Hypothesis HDict : forall d, Forall (fun kv => P (snd kv)) d -> P (PDict d).

Fixpoint value_induction (v : value) : P v :=
  match v with
  | PNone => HNone
  | PBool b => HBool b
  | PInt z => HInt z
  | PFloat f => HFloat f
  | PStr s => HStr s
  | PList l =>
      HList l ((fix all (l : list value) : Forall P l :=
                  match l with
                  | [] => Forall_nil P
                  | x :: r => Forall_cons x (value_induction x) (all r)
                  end) l)
  | PDict d =>
      HDict d ((fix all (d : list (string * value))
                  : Forall (fun kv => P (snd kv)) d :=
                  match d with
                  | [] => Forall_nil _
                  | kv :: r => Forall_cons kv (value_induction (snd kv)) (all r)
                  end) d)
  end.
End ValueInduction.

Fixpoint lookup (key : string) (d : dict) : option value :=
  match d with
  | [] => None
  | (k, v) :: d' => if String.eqb key k then Some v else lookup key d'
  end.

Definition keys (d : dict) : list string := map fst d.

(** [key in d] for a [str] key. *)
Definition dict_contains (d : dict) (key : string) : bool :=
  match lookup key d with Some _ => true | None => false end.

(** [d.get(key, default)]. *)
Definition dict_get (d : dict) (key : string) (default : value) : value :=
  match lookup key d with Some v => v | None => default end.

(** [obj.get(key, default)]: only a [dict] has the attribute. *)
Definition get (obj : value) (key : string) (default : value) : res value :=
  match obj with
  | PDict d => Ok (dict_get d key default)
  | _ => Raise AttributeError
  end.

(** [obj.items()]. *)
Definition items (obj : value) : res dict :=
  match obj with
  | PDict d => Ok d
  | _ => Raise AttributeError
  end.

(** ** isinstance *)

Definition isinstance_str (v : value) : bool :=
  match v with PStr _ => true | _ => false end.
Definition isinstance_bool (v : value) : bool :=
  match v with PBool _ => true | _ => false end.
(** [bool] is a subclass of [int]. *)
Definition isinstance_int (v : value) : bool :=
  match v with PInt _ | PBool _ => true | _ => false end.
Definition isinstance_float (v : value) : bool :=
  match v with PFloat _ => true | _ => false end.
(** [collections.abc.Sequence]: [list] and [str] among the decoded values. *)
Definition isinstance_Sequence (v : value) : bool :=
  match v with PList _ | PStr _ => true | _ => false end.
(** [(str, bytes, bytearray)]. *)
Definition isinstance_str_bytes (v : value) : bool :=
  match v with PStr _ => true | _ => false end.
Definition isinstance_Mapping (v : value) : bool :=
  match v with PDict _ => true | _ => false end.
Definition is_None (v : value) : bool :=
  match v with PNone => true | _ => false end.
(** [v is False]. *)
Definition is_False (v : value) : bool :=
  match v with PBool false => true | _ => false end.

(** A [list] or [dict] cannot be hashed. *)
Definition hashable (v : value) : bool :=
  match v with PList _ | PDict _ => false | _ => true end.

(** ** Truthiness *)

Definition str_truthy (s : string) : bool :=
  match s with EmptyString => false | _ => true end.

Definition truthy (v : value) : bool :=
  match v with
  | PNone => false
  | PBool b => b
  | PInt z => negb (z =? 0)
  | PFloat (S754_zero _) => false
  | PFloat _ => true
  | PStr s => str_truthy s
  | PList [] => false
  | PList _ => true
  | PDict [] => false
  | PDict _ => true
  end.

(** ** Characters and text *)

Definition squote : ascii := "039"%char.
Definition dquote : ascii := "034"%char.
Definition backslash : ascii := "092"%char.
Definition char (c : ascii) : string := String c EmptyString.

Definition code (c : ascii) : Z := Z.of_N (N_of_ascii c).

Definition hex_digit (n : Z) : ascii :=
  match String.get (Z.to_nat n) "0123456789abcdef" with
  | Some c => c
  | None => "0"%char
  end.

(** [\xNN] *)
Definition hex_escape (c : ascii) : string :=
  String backslash
    (String "x" (String (hex_digit (code c / 16)) (char (hex_digit (code c mod 16))))).

(** [str.isprintable] on one code point of U+0000..U+00FF. *)
Definition isprintable (c : ascii) : bool :=
  let n := code c in
  ((32 <=? n) && (n <? 127)) || ((161 <=? n) && negb (n =? 173)).

Fixpoint contains_char (c : ascii) (s : string) : bool :=
  match s with
  | EmptyString => false
  | String a s' => Ascii.eqb a c || contains_char c s'
  end.

(** The quote [repr] picks: double only when the text has a single quote
    and no double quote. *)
Definition repr_quote (s : string) : ascii :=
  if contains_char squote s && negb (contains_char dquote s) then dquote else squote.

Definition repr_char (quote c : ascii) : string :=
  if Ascii.eqb c quote || Ascii.eqb c backslash then String backslash (char c)
  else if code c =? 9 then String backslash "t"
  else if code c =? 10 then String backslash "n"
  else if code c =? 13 then String backslash "r"
  else if isprintable c then char c
  else hex_escape c.

Fixpoint repr_chars (quote : ascii) (s : string) : string :=
  match s with
  | EmptyString => EmptyString
  | String c s' => repr_char quote c ++ repr_chars quote s'
  end.

(** [repr(s)] for a [str]. *)
Definition repr_str (s : string) : string :=
  let q := repr_quote s in
  String q (repr_chars q s ++ char q).

(** The decimal text of an [int]: what [repr(n)] gives when it gives a
    text, that is up to 4300 digits ([py_repr] below has the limit).  The
    counters the code formats on its own, an index of a list and a number of
    errors, are far below it. *)
Definition repr_int (z : Z) : string := NilZero.string_of_int (Z.to_int z).

(** [s.lower()] on U+0000..U+00FF. *)
Definition lower_char (c : ascii) : ascii :=
  let n := code c in
  if ((65 <=? n) && (n <=? 90)) || ((192 <=? n) && (n <=? 222) && negb (n =? 215))
  then ascii_of_N (Z.to_N (n + 32))
  else c.

Fixpoint lower (s : string) : string :=
  match s with
  | EmptyString => EmptyString
  | String c s' => String (lower_char c) (lower s')
  end.

(** [sub in s] for two [str]. *)
Fixpoint is_substring (sub s : string) : bool :=
  String.prefix sub s ||
  match s with
  | EmptyString => false
  | String _ s' => is_substring sub s'
  end.

Fixpoint chars (s : string) : list string :=
  match s with
  | EmptyString => []
  | String c s' => char c :: chars s'
  end.

(** ** Rendering a float

    [repr] of a finite float prints the shortest decimal digit string that
    reads back as the same binary64 value (the nearest one when several of
    that length do), in positional form when the decimal point falls within
    (-4, 16] and in exponent form otherwise. *)

Definition bitlen (m : Z) : Z := Z.log2 m + 1.

(** The binary64 form of [m * 2^e]: a 53-bit significand, or the least
    exponent -1074. *)
Definition normalize (m : positive) (e : Z) : Z * Z :=
  let k := Z.max 0 (Z.min (53 - bitlen (Zpos m)) (e + 1074)) in
  (Zpos m * 2 ^ k, e - k).

(** [10^p <= m * 2^e] *)
Definition pow10_le (p : Z) (m : Z) (e : Z) : bool :=
  let a := if 0 <=? p then 10 ^ p else 1 in
  let b := if 0 <=? p then 1 else 10 ^ (- p) in
  let c := if 0 <=? e then m * 2 ^ e else m in
  let d := if 0 <=? e then 1 else 2 ^ (- e) in
  a * d <=? c * b.

(** The largest [p] with [10^p <= m * 2^e]. *)
Definition floor_log10 (m : Z) (e : Z) : Z :=
  let p0 := ((bitlen m + e - 1) * 30103) / 100000 - 1 in
  if pow10_le (p0 + 2) m e then p0 + 2
  else if pow10_le (p0 + 1) m e then p0 + 1
  else p0.

Fixpoint strip_zeros (fuel : nat) (d : Z) : Z :=
  match fuel with
  | O => d
  | S fuel' => if (0 <? d) && (d mod 10 =? 0) then strip_zeros fuel' (d / 10) else d
  end.

(** The shortest digits of [m * 2^e], tried with [n], [n+1], ... significant
    digits: the digit string as an integer and the position of the point.
    [L] and [H] bound the reals that round to the float, scaled by [2^s]. *)
Fixpoint shortest_digits (fuel : nat) (n : Z) (m : Z) (e p : Z) : Z * Z :=
  let s := Z.max 0 (2 - e) in
  let X := m * 2 ^ (e + s) in
  let hu := 2 ^ (e - 1 + s) in
  let hd := if (m =? 2 ^ 52) && (-1074 <? e) then 2 ^ (e - 2 + s) else hu in
  let L := X - hd in
  let H := X + hu in
  let q := p - n + 1 in
  let A := if 0 <=? q then 1 else 10 ^ (- q) in
  let B := if 0 <=? q then 10 ^ q * 2 ^ s else 2 ^ s in
  let lo := (X * A) / B in
  let hi := if (X * A) mod B =? 0 then lo else lo + 1 in
  let inside c :=
    if Z.even m then (L * A <=? c * B) && (c * B <=? H * A)
    else (L * A <? c * B) && (c * B <? H * A) in
  let dlo := X * A - lo * B in
  let dhi := hi * B - X * A in
  let nearest :=
    if dlo <? dhi then lo else if dhi <? dlo then hi
    else if Z.even lo then lo else hi in
  let finish c := (strip_zeros 20 c, q + Z.of_nat (String.length (repr_int c))) in
  match fuel with
  | O => finish nearest
  | S fuel' =>
      match inside lo, inside hi with
      | true, true => finish nearest
      | true, false => finish lo
      | false, true => finish hi
      | false, false => shortest_digits fuel' (n + 1) m e p
      end
  end.

Fixpoint zeros (n : nat) : string :=
  match n with O => EmptyString | S n' => String "0" (zeros n') end.

Definition format_short (digits : string) (decpt : Z) : string :=
  let len := Z.of_nat (String.length digits) in
  if (decpt <=? -4) || (16 <? decpt) then
    let ex := decpt - 1 in
    let mant :=
      match digits with
      | String c (String c' rest) => String c (String "." (String c' rest))
      | _ => digits
      end in
    mant ++ "e" ++ (if ex <? 0 then "-" else "+")
         ++ (if Z.abs ex <? 10 then "0" else EmptyString) ++ repr_int (Z.abs ex)
  else if decpt <=? 0 then
    "0." ++ zeros (Z.to_nat (- decpt)) ++ digits
  else if len <=? decpt then
    digits ++ zeros (Z.to_nat (decpt - len)) ++ ".0"
  else
    String.substring 0 (Z.to_nat decpt) digits ++ "."
      ++ String.substring (Z.to_nat decpt) (Z.to_nat (len - decpt)) digits.

(** [repr(x)] for a [float]. *)
Definition repr_float (f : spec_float) : string :=
  match f with
  | S754_nan => "nan"
  | S754_infinity false => "inf"
  | S754_infinity true => "-inf"
  | S754_zero false => "0.0"
  | S754_zero true => "-0.0"
  | S754_finite sg m e =>
      let '(m, e) := normalize m e in
      let '(d, decpt) := shortest_digits 16 1 m e (floor_log10 m e) in
      (if sg then "-" else EmptyString) ++ format_short (repr_int d) decpt
  end.

(** ** repr and str *)

Definition repr_bool (b : bool) : string := if b then "True" else "False".

Fixpoint repr (v : value) : string :=
  match v with
  | PNone => "None"
  | PBool b => repr_bool b
  | PInt z => repr_int z
  | PFloat f => repr_float f
  | PStr s => repr_str s
  | PList l => "[" ++ String.concat ", " (map repr l) ++ "]"
  | PDict d =>
      "{" ++ String.concat ", "
               (map (fun kv => repr_str (fst kv) ++ ": " ++ repr (snd kv)) d) ++ "}"
  end.

(** [str(v)], which is also what an f-string field without conversion
    prints: the text itself for a [str], [repr] for the rest. *)
Definition str (v : value) : string :=
  match v with
  | PStr s => s
  | _ => repr v
  end.

(** ** The limit on rendering an int

    [repr], [str] and an f-string field raise [ValueError] on an [int] of
    more than 4300 decimal digits (the sign not counted), also when the int
    sits inside a list or a dict.  [repr] and [str] above give the text when
    there is one; [py_repr] and [py_str] are the calls as the code makes
    them. *)

Definition int_max_str_digits : Z := 4300.

Definition int_renderable (z : Z) : bool :=
  Z.of_nat (String.length (repr_int (Z.abs z))) <=? int_max_str_digits.

Fixpoint renderable (v : value) : bool :=
  match v with
  | PInt z => int_renderable z
  | PList l => forallb renderable l
  | PDict d => forallb (fun kv => renderable (snd kv)) d
  | _ => true
  end.

Definition int_limit_error : exn :=
  ValueError "Exceeds the limit (4300 digits) for integer string conversion; use sys.set_int_max_str_digits() to increase the limit".

(** [repr(v)], and [{v!r}] in an f-string. *)
Definition py_repr (v : value) : res string :=
  if renderable v then Ok (repr v) else Raise int_limit_error.

(** [str(v)], and [{v}] in an f-string. *)
Definition py_str (v : value) : res string :=
  match v with
  | PStr s => Ok s
  | _ => py_repr v
  end.

Arguments int_renderable : simpl never.
Arguments py_repr : simpl never.

(** ** Equality

    [==] compares numbers by value across [bool], [int] and [float], and
    containers element-wise; a [dict] is compared without regard to order.
    (Membership tests also accept an identical object: see [py_in].) *)

(** [z == m * 2^e], exactly. *)
Definition int_eq_dyadic (z : Z) (m : Z) (e : Z) : bool :=
  if 0 <=? e then z =? m * 2 ^ e
  else (m mod 2 ^ (- e) =? 0) && (z =? m / 2 ^ (- e)).

Definition signed (sg : bool) (m : positive) : Z :=
  if sg then Zneg m else Zpos m.

Definition int_eq_float (z : Z) (f : spec_float) : bool :=
  match f with
  | S754_zero _ => z =? 0
  | S754_finite sg m e => int_eq_dyadic z (signed sg m) e
  | _ => false
  end.

Definition float_eq (f g : spec_float) : bool :=
  match f, g with
  | S754_zero _, S754_zero _ => true
  | S754_infinity s, S754_infinity s' => Bool.eqb s s'
  | S754_finite s m e, S754_finite s' m' e' =>
      let k := Z.min e e' in
      signed s m * 2 ^ (e - k) =? signed s' m' * 2 ^ (e' - k)
  | _, _ => false
  end.

Definition int_of_bool (b : bool) : Z := if b then 1 else 0.

Fixpoint py_eq (a b : value) {struct a} : bool :=
  match a, b with
  | PNone, PNone => true
  | PBool x, PBool y => Bool.eqb x y
  | PBool x, PInt z => int_of_bool x =? z
  | PBool x, PFloat f => int_eq_float (int_of_bool x) f
  | PInt z, PBool y => z =? int_of_bool y
  | PInt z, PInt z' => z =? z'
  | PInt z, PFloat f => int_eq_float z f
  | PFloat f, PBool y => int_eq_float (int_of_bool y) f
  | PFloat f, PInt z => int_eq_float z f
  | PFloat f, PFloat g => float_eq f g
  | PStr s, PStr s' => String.eqb s s'
  | PList l, PList l' =>
      (fix go (l l' : list value) : bool :=
         match l, l' with
         | [], [] => true
         | x :: r, y :: r' => py_eq x y && go r r'
         | _, _ => false
         end) l l'
  | PDict d, PDict d' =>
      Nat.eqb (List.length d) (List.length d') &&
      forallb (fun kv => match lookup (fst kv) d' with
                         | Some w => py_eq (snd kv) w
                         | None => false
                         end) d
  | _, _ => false
  end.

(** [x in container].  On a list Python accepts an element that is equal to
    [x] or is the very object [x]; the second adds something for a NaN only
    (the one value not equal to itself), and which NaN objects are shared
    depends on the decoder.  Identity is not modelled: membership here is by
    [==], and it is Python's for every [x] without a NaN. *)
Definition py_in (x container : value) : res bool :=
  match container with
  | PList l => Ok (existsb (fun e => py_eq e x) l)
  | PDict d =>
      if hashable x
      then Ok (match x with PStr k => dict_contains d k | _ => false end)
      else Raise TypeError
  | PStr s =>
      match x with
      | PStr sub => Ok (is_substring sub s)
      | _ => Raise TypeError
      end
  | _ => Raise TypeError
  end.

(** The elements a [for] loop visits. *)
Definition iter (v : value) : res (list value) :=
  match v with
  | PList l => Ok l
  | PDict d => Ok (map PStr (keys d))
  | PStr s => Ok (map PStr (chars s))
  | _ => Raise TypeError
  end.

(** [sorted] on a list of [str]: insertion into an ordered list, by code
    points. *)
Fixpoint insert_sorted (k : string) (l : list string) : list string :=
  match l with
  | [] => [k]
  | x :: r => if String.leb k x then k :: l else x :: insert_sorted k r
  end.

Definition sorted (l : list string) : list string :=
  fold_right insert_sorted [] l.

End Py.

(* ====================================================================== *)
(** * suite.py *)
(* ====================================================================== *)

Module Suite.
Import Py.

Definition SUPPORTED_FORMATS : list string := [".json"; ".toml"; ".ini"].

(** [ValidationResult] *)
Record ValidationResult : Type := mkValidationResult {
  valid : bool;
  errors : list string;
  warnings : list string
}.

(** [errors.append(msg)] and [errors.extend(more)], on the list threaded
    through the code. *)
Definition append (errors : list string) (msg : string) : list string :=
  (errors ++ [msg])%list.
Definition extend (errors more : list string) : list string :=
  (errors ++ more)%list.

(** Truthiness of a list of messages ([not errors]). *)
Definition list_truthy {A : Type} (l : list A) : bool :=
  match l with [] => false | _ => true end.

(** [len(l)], an [int]. *)
Definition len {A : Type} (l : list A) : Z := Z.of_nat (List.length l).

(** [ValidationResult.raise_for_errors] *)
Definition raise_for_errors (self : ValidationResult) : res unit :=
  if list_truthy (errors self)
  then Raise (ValidationError (String.concat "; " (errors self)))
  else Ok tt.

(** [ValidationResult.summary] *)
Definition summary (self : ValidationResult) : string :=
  let status := if valid self then "PASS" else "FAIL" in
  let parts := ["Validation " ++ status] in
  let parts := if list_truthy (errors self)
               then append parts ("Errors: " ++ repr_int (len (errors self)))
               else parts in
  let parts := if list_truthy (warnings self)
               then append parts ("Warnings: " ++ repr_int (len (warnings self)))
               else parts in
  String.concat " | " parts.

(** ** _check_type *)

Definition checkers : list (string * (value -> bool)) :=
  [ ("string",  fun x => isinstance_str x);
    ("number",  fun x => (isinstance_int x || isinstance_float x) && negb (isinstance_bool x));
    ("integer", fun x => isinstance_int x && negb (isinstance_bool x));
    ("boolean", fun x => isinstance_bool x);
    ("array",   fun x => isinstance_Sequence x && negb (isinstance_str_bytes x));
    ("object",  fun x => isinstance_Mapping x);
    ("null",    fun x => is_None x) ].

Fixpoint assoc {A : Type} (key : string) (l : list (string * A)) : option A :=
  match l with
  | [] => None
  | (k, a) :: l' => if String.eqb key k then Some a else assoc key l'
  end.

(** [checkers.get(expected)]: the key is hashed first; only a [str] can
    equal one of the keys. *)
Definition checkers_get (expected : value) : res (option (value -> bool)) :=
  if hashable expected
  then Ok (match expected with PStr t => assoc t checkers | _ => None end)
  else Raise TypeError.

Definition _check_type (v expected : value) : res (option string) :=
  checker <- checkers_get expected ;;
  match checker with
  | None =>
      shown <- py_str expected ;;
      Ok (Some ("Unknown schema type '" ++ shown ++ "'"))
  | Some check =>
      if negb (check v)
      then shown <- py_str expected ;;
           received <- py_repr v ;;
           Ok (Some ("Expected type '" ++ shown
                       ++ "' but received value " ++ received))
      else Ok None
  end.

(** ** _validate_object and _validate_schema

    The two functions call each other.  The loops of [_validate_object] are
    written over the function they recurse into, so that [_validate_schema]
    can be defined by recursion on [data]. *)

Section Loops.
Variable recurse : value -> value -> string -> res (list string).

(** [if key in data: found(data[key])], reading the entry where it sits. *)
Definition on_item {A : Type} (key : string) (found : value -> A) (missing : A)
  : dict -> A :=
  fix go (d : dict) : A :=
    match d with
    | [] => missing
    | (k, v) :: d' => if String.eqb key k then found v else go d'
    end.

(** [for key in required: if key not in data: errors.append(...)] *)
Fixpoint required_loop (data : dict) (path : string)
    (required : list value) (errors : list string) : res (list string) :=
  match required with
  | [] => Ok errors
  | key :: rest =>
      present <- py_in key (PDict data) ;;
      errors <- (if negb present
                 then shown <- py_str key ;;
                      Ok (append errors
                            (path ++ ": missing required key '" ++ shown ++ "'"))
                 else Ok errors) ;;
      required_loop data path rest errors
  end.

(** [for key, subschema in properties.items(): if key in data: ...] *)
Definition properties_loop (data : dict) (path : string)
  : dict -> list string -> res (list string) :=
  fix loop (properties : dict) (errors : list string) : res (list string) :=
    match properties with
    | [] => Ok errors
    | (key, subschema) :: rest =>
        errs <- on_item key
                  (fun v => recurse v subschema (path ++ "." ++ key))
                  (Ok []) data ;;
        loop rest (extend errors errs)
    end.

(** [for index, value in enumerate(data): errors.extend(...)] *)
Definition items_loop (item_schema : value) (path : string)
  : list value -> Z -> list string -> res (list string) :=
  fix loop (data : list value) (index : Z) (errors : list string)
    : res (list string) :=
    match data with
    | [] => Ok errors
    | v :: rest =>
        errs <- recurse v item_schema (path ++ "[" ++ repr_int index ++ "]") ;;
        loop rest (index + 1) (extend errors errs)
    end.

Definition unexpected_keys (data properties : dict) : list string :=
  let allowed_keys := keys properties in
  sorted (filter (fun k => negb (existsb (String.eqb k) allowed_keys)) (keys data)).

Definition validate_object_with (data : dict) (schema : value) (path : string)
  : res (list string) :=
  let errors := [] in
  required <- get schema "required" (PList []) ;;
  required_keys <- iter required ;;
  errors <- required_loop data path required_keys errors ;;
  properties <- get schema "properties" (PDict []) ;;
  property_items <- items properties ;;
  errors <- properties_loop data path property_items errors ;;
  additional <- get schema "additionalProperties" (PBool true) ;;
  if is_False additional
  then Ok (fold_left
             (fun errors key => append errors (path ++ ": unexpected key '" ++ key ++ "'"))
             (unexpected_keys data property_items) errors)
  else Ok errors.
End Loops.

(** [if type_error:] and [f"{type_error}"] for a [str | None]. *)
Definition type_error_truthy (type_error : option string) : bool :=
  match type_error with
  | Some e => str_truthy e
  | None => false
  end.

Definition type_error_str (type_error : option string) : string :=
  match type_error with
  | Some e => e
  | None => "None"
  end.

(** The text of the enum error, when both values can be rendered. *)
Definition enum_message (path : string) (data enum_values : value) : string :=
  path ++ ": value " ++ repr data ++ " is not in allowed set " ++ repr enum_values.

Fixpoint _validate_schema (data schema : value) (path : string) {struct data}
  : res (list string) :=
  let errors := [] in
  schema_type <- get schema "type" PNone ;;
  type_error <- (if truthy schema_type then _check_type data schema_type else Ok None) ;;
  if type_error_truthy type_error
  then (* If the type check fails there is no point recursing further. *)
       Ok (append errors (path ++ ": " ++ type_error_str type_error))
  else
  enum_values <- get schema "enum" PNone ;;
  errors <- (if negb (is_None enum_values)
             then present <- py_in data enum_values ;;
                  if negb present
                  then shown <- py_repr data ;;
                       allowed <- py_repr enum_values ;;
                       Ok (append errors
                             (path ++ ": value " ++ shown
                                ++ " is not in allowed set " ++ allowed))
                  else Ok errors
             else Ok errors) ;;
  if py_eq schema_type (PStr "object") && isinstance_Mapping data then
    match data with
    | PDict d =>
        errs <- validate_object_with _validate_schema d schema path ;;
        Ok (extend errors errs)
    | _ => Ok errors
    end
  else if py_eq schema_type (PStr "array") && isinstance_Sequence data
          && negb (isinstance_str_bytes data) then
    match data with
    | PList l =>
        item_schema <- get schema "items" PNone ;;
        if truthy item_schema
        then items_loop _validate_schema item_schema path l 0 errors
        else Ok errors
    | _ => Ok errors
    end
  else Ok errors.

(** [_validate_object], as [_validate_schema] calls it. *)
Definition _validate_object (data : dict) (schema : value) (path : string)
  : res (list string) :=
  validate_object_with _validate_schema data schema path.

(** ** The file system and the decoders

    A [Path] object is used through [str(path)], [path.suffix],
    [path.exists()] and [path.open()].  A file system answers the last two.
    [fs_exists] answers [False] for a missing file and raises the [OSError]
    that [exists()] does not swallow (a name too long, for one); [fs_open]
    stands for opening the file and reading it to the end, and fails with
    [OSError].  The decoders ([json.load], [tomllib.load],
    [configparser] followed by the section comprehension) are functions of
    the bytes read; which exception classes they raise is part of [exn]. *)

Record Path : Type := mkPath {
  path_str : string;   (* str(path) *)
  suffix : string      (* path.suffix *)
}.

Record FileSystem : Type := mkFileSystem {
  fs_exists : Path -> res bool;
  fs_open : Path -> res string
}.

Record Decoders : Type := mkDecoders {
  json_load : string -> res value;
  tomllib_load : string -> res value;
  configparser_load : string -> res value
}.

(** [ConfigValidationSuite]: the instance holds [strict]. *)
Record ConfigValidationSuite : Type := mkSuite {
  strict : bool
}.

(** [SUPPORTED_FORMATS] is a set: the order in which a run iterates it
    depends on the hash seed of that run.  [validate_run] takes that order,
    [formats]; [validate] below is the run that iterates in the order of the
    source text. *)
Section Facade.
Variable formats : list string.
Variable dec : Decoders.
Variable fs : FileSystem.

(** ** _load_config *)
Definition _load_config (path : Path) : res value :=
  let sfx := lower (suffix path) in
  if String.eqb sfx ".json" then
    fh <- fs_open fs path ;; json_load dec fh
  else if String.eqb sfx ".toml" then
    fh <- fs_open fs path ;; tomllib_load dec fh
  else if String.eqb sfx ".ini" then
    fh <- fs_open fs path ;; configparser_load dec fh
  else Raise (ValidationError ("Unsupported format: " ++ suffix path)).

(** [except (OSError, ValueError)] *)
Definition caught (exc : exn) : bool :=
  isinstance_OSError exc || isinstance_ValueError exc.

(** ** ConfigValidationSuite.validate *)
Definition validate_run (self : ConfigValidationSuite) (config_path : Path)
    (schema : value) : res ValidationResult :=
  let path := config_path in
  let errors : list string := [] in
  let warnings : list string := [] in
  found <- fs_exists fs path ;;
  if negb found then
    let msg := "Config file '" ++ path_str path ++ "' does not exist." in
    let errors := if strict self then append errors msg else errors in
    let warnings := if strict self then warnings else append warnings msg in
    Ok (mkValidationResult (negb (list_truthy errors)) errors warnings)
  else if negb (existsb (String.eqb (lower (suffix path))) formats) then
    let errors :=
      append errors
        ("Unsupported config format '" ++ suffix path ++ "'. Supported formats: "
           ++ String.concat ", " (sorted formats) ++ ".") in
    Ok (mkValidationResult false errors warnings)
  else
    match _load_config path with
    | Raise exc =>
        if caught exc then
          let errors := append errors ("Failed to load config: " ++ exn_str exc) in
          Ok (mkValidationResult false errors warnings)
        else Raise exc
    | Ok data =>
        errors <- (if truthy schema
                   then schema_errors <- _validate_schema data schema "$" ;;
                        Ok (extend errors schema_errors)
                   else Ok errors) ;;
        Ok (mkValidationResult (negb (list_truthy errors)) errors warnings)
    end.
End Facade.

Definition validate (dec : Decoders) (fs : FileSystem)
    (self : ConfigValidationSuite) (config_path : Path) (schema : value)
  : res ValidationResult :=
  validate_run SUPPORTED_FORMATS dec fs self config_path schema.

End Suite.

(* ====================================================================== *)
(** * cli.py *)
(* ====================================================================== *)

Module Cli.
Import Py Suite.

(** The namespace [parser.parse_args(argv)] returns: the positional
    [config], the optional [--schema] and the [--strict] flag.  Parsing the
    argument vector is the argument parser's work; [main] is modelled from
    the namespace on. *)
Record Namespace : Type := mkNamespace {
  arg_config : Path;
  arg_schema : option Path;
  arg_strict : bool
}.

(** [print(line)], on the lines written so far. *)
Definition print (stdout : list string) (line : string) : list string :=
  (stdout ++ [line])%list.

Section Main.
Variable dec : Decoders.
Variable fs : FileSystem.

(** [load_schema]: a [Path] object is always truthy, so [not path] holds
    for [None] only. *)
Definition load_schema (path : option Path) : res value :=
  match path with
  | None => Ok PNone
  | Some p => fh <- fs_open fs p ;; json_load dec fh
  end.

(** [main]: the lines printed and the exit status. *)
Definition main (args : Namespace) : res (list string * Z) :=
  let suite := mkSuite (arg_strict args) in
  schema <- load_schema (arg_schema args) ;;
  result <- validate dec fs suite (arg_config args) schema ;;
  let stdout := print [] (summary result) in
  let stdout := fold_left (fun out error => print out ("ERROR: " ++ error))
                          (errors result) stdout in
  let stdout := fold_left (fun out warning => print out ("WARNING: " ++ warning))
                          (warnings result) stdout in
  Ok (stdout, if valid result then 0 else 1).
End Main.

End Cli.

(* ====================================================================== *)
(** * Vocabulary of the statements, and sample inputs *)
(* ====================================================================== *)

Import Py Suite.

Definition recognized_types : list string := map fst checkers.

Definition missing_message (path : Path) : string :=
  "Config file '" ++ path_str path ++ "' does not exist.".

(** A file system without any file, and decoders that fail on every input. *)
Definition empty_fs : FileSystem :=
  mkFileSystem (fun _ => Ok false)
               (fun _ => Raise (OSError "No such file or directory")).

Definition failing_decoders : Decoders :=
  mkDecoders (fun _ => Raise (JSONDecodeError "Expecting value"))
             (fun _ => Raise (TOMLDecodeError "Invalid statement"))
             (fun _ => Raise (ConfigParserError "File contains no section headers.")).

(** A file [settings.ini] holding [key = value] and no section header. *)
Definition headerless_ini : string := "key = value".

Definition one_file_fs (name content : string) : FileSystem :=
  mkFileSystem (fun p => Ok (String.eqb (path_str p) name))
               (fun p => if String.eqb (path_str p) name then Ok content
                         else Raise (OSError "No such file or directory")).

(** Decoders that accept one text each, and two file systems that hold
    [app.json] with the same bytes and differ elsewhere. *)
Definition sample_decoders : Decoders :=
  mkDecoders
    (fun text => if String.eqb text "[1, true, null]"
                 then Ok (PList [PInt 1; PBool true; PNone])
                 else Raise (JSONDecodeError "Expecting value"))
    (fun text => if String.eqb text "n = 1"
                 then Ok (PDict [("n", PInt 1)])
                 else Raise (TOMLDecodeError "Invalid statement"))
    (fun text => if String.eqb text "[s]"
                 then Ok (PDict [("s", PDict [])])
                 else Raise (ConfigParserError "File contains no section headers.")).

Definition crowded_fs : FileSystem :=
  mkFileSystem (fun _ => Ok true)
               (fun p => if String.eqb (path_str p) "app.json"
                         then Ok "[1, true, null]" else Ok "n = 1").

Definition string_le (a b : string) : Prop := String.leb a b = true.

Definition key_present (d : dict) (key : value) : bool :=
  match key with PStr k => dict_contains d k | _ => false end.

Definition missing_message_of (path : string) (key : value) : string :=
  path ++ ": missing required key '" ++ str key ++ "'".

(** The missing-key errors: the absent names, in the order of [required]. *)
Definition missing_errors (d : dict) (path : string) (required : list value)
  : list string :=
  map (missing_message_of path) (filter (fun key => negb (key_present d key)) required).

Definition unexpected_errors (path : string) (ks : list string) : list string :=
  map (fun key => path ++ ": unexpected key '" ++ key ++ "'") ks.

Fixpoint enumerate (start : Z) (l : list value) : list (Z * value) :=
  match l with
  | [] => []
  | v :: r => (start, v) :: enumerate (start + 1) r
  end.

Section Results.
Variable recurse : value -> value -> string -> res (list string).

(** The recursion results for the properties present in the data, one per
    property, in the order of [properties]. *)
Definition property_results_of (d : dict) (path : string) (props : dict)
    (rs : list (list string)) : Prop :=
  Forall2 (fun kv r => exists v, lookup (fst kv) d = Some v /\
                       recurse v (snd kv) (path ++ "." ++ fst kv) = Ok r)
          (filter (fun kv => dict_contains d (fst kv)) props) rs.

(** The recursion results for the items, one per item, by index. *)
Definition item_results_of (item_schema : value) (path : string)
    (start : Z) (l : list value) (rs : list (list string)) : Prop :=
  Forall2 (fun iv r => recurse (snd iv) item_schema
                         (path ++ "[" ++ repr_int (fst iv) ++ "]") = Ok r)
          (enumerate start l) rs.

End Results.

Definition property_results := property_results_of _validate_schema.
Definition item_results := item_results_of _validate_schema.

(** The enum part: nothing when [enum] is absent or [None]; otherwise the
    one message exactly when the value is not a member. *)
Definition enum_segment (data enum_values : value) (path : string)
    (E : list string) : Prop :=
  if is_None enum_values then E = []
  else exists present : bool,
      py_in data enum_values = Ok present /\
      E = if present then [] else [enum_message path data enum_values].

(** The keys [ks] are the candidates [cand] put in order. *)
Definition in_sorted_order (ks cand : list string) : Prop :=
  StronglySorted string_le ks /\ Permutation ks cand.

(** The three parts of an object node: missing keys in the order of
    [required], then the results for the properties in the order of
    [properties], then the unexpected keys [ks], which [K] relates to the
    keys of the data that [properties] does not name. *)
Definition object_segments (K : list string -> list string -> Prop)
    (data : value) (sd : dict) (path : string) (R P U : list string) : Prop :=
  match data with
  | PDict d =>
      if py_eq (dict_get sd "type" PNone) (PStr "object") then
        exists (required : list value) (props : dict)
               (rs : list (list string)) (ks : list string),
          iter (dict_get sd "required" (PList [])) = Ok required /\
          dict_get sd "properties" (PDict []) = PDict props /\
          R = missing_errors d path required /\
          property_results d path props rs /\
          P = List.concat rs /\
          U = unexpected_errors path ks /\
          K ks
            (if is_False (dict_get sd "additionalProperties" (PBool true))
             then filter (fun k => negb (existsb (String.eqb k) (keys props))) (keys d)
             else [])
      else R = [] /\ P = [] /\ U = []
  | _ => R = [] /\ P = [] /\ U = []
  end.

(** The part of an array node: the results for the items, by index from 0. *)
Definition item_segment (data : value) (sd : dict) (path : string)
    (I : list string) : Prop :=
  match data with
  | PList l =>
      if py_eq (dict_get sd "type" PNone) (PStr "array")
         && truthy (dict_get sd "items" PNone)
      then exists rs : list (list string),
          item_results (dict_get sd "items" PNone) path 0 l rs /\
          I = List.concat rs
      else I = []
  | _ => I = []
  end.

(** How the errors of one node split: either the type check failed and its
    message [T] is all there is, or there is no [T] and the enum part [E],
    the object parts [R], [P], [U] and the array part [I] follow one
    another. *)
Definition node_parts (K : list string -> list string -> Prop)
    (data : value) (sd : dict) (path : string)
    (T E R P U I : list string) : Prop :=
  (exists e : string,
      truthy (dict_get sd "type" PNone) = true /\
      _check_type data (dict_get sd "type" PNone) = Ok (Some e) /\
      T = [path ++ ": " ++ e] /\
      E = [] /\ R = [] /\ P = [] /\ U = [] /\ I = [])
  \/
  (T = [] /\
   (truthy (dict_get sd "type" PNone) = false \/
    _check_type data (dict_get sd "type" PNone) = Ok None) /\
   enum_segment data (dict_get sd "enum" PNone) path E /\
   object_segments K data sd path R P U /\
   item_segment data sd path I).

(** The parts as the code computes them, and as the ordering claim reads
    them. *)
Definition node_shape := node_parts (fun ks cand => ks = sorted cand).
Definition node_report := node_parts in_sorted_order.

Definition sample_data : value :=
  PDict [("b", PInt 1); ("a", PList [PInt 1; PStr "two"]); ("Z", PNone)].

Definition sample_schema : value :=
  PDict [("type", PStr "object");
         ("enum", PList [PDict []]);
         ("required", PList [PStr "q"; PStr "a"; PStr "r"]);
         ("properties",
          PDict [("a", PDict [("type", PStr "array");
                              ("items", PDict [("type", PStr "integer")])]);
                 ("b", PDict [("type", PStr "string")])]);
         ("additionalProperties", PBool false)].

Definition sample_errors : list string :=
  ["$: value {'b': 1, 'a': [1, 'two'], 'Z': None} is not in allowed set [{}]";
   "$: missing required key 'q'";
   "$: missing required key 'r'";
   "$.a[1]: Expected type 'integer' but received value 'two'";
   "$.b: Expected type 'string' but received value 1";
   "$: unexpected key 'Z'"].

(** The locations inside a value, as the path text that leads to them:
    nothing for the value itself, [.key] into a member, [[index]] into an
    element, indices counted from 0. *)
Inductive path_in : value -> string -> Prop :=
| path_here (v : value) : path_in v EmptyString
| path_member (d : dict) (key : string) (v : value) (loc : string) :
    lookup key d = Some v -> path_in v loc ->
    path_in (PDict d) ("." ++ key ++ loc)
| path_element (l : list value) (i : nat) (v : value) (loc : string) :
    nth_error l i = Some v -> path_in v loc ->
    path_in (PList l) ("[" ++ repr_int (Z.of_nat i) ++ "]" ++ loc).

(** An error is located in [data] from [path] when it reads
    [path ++ location ++ ": " ++ message] for a location of [data]. *)
Definition located (data : value) (path : string) (e : string) : Prop :=
  exists loc msg : string, path_in data loc /\ e = path ++ loc ++ ": " ++ msg.

Definition nested_value : value :=
  PDict [("a", PList [PInt 1; PStr "two"; PInt 3])].

Definition nested_schema : value :=
  PDict [("type", PStr "object");
         ("properties",
          PDict [("a", PDict [("type", PStr "array");
                              ("items", PDict [("type", PStr "integer")])])])].

(** ** Vocabulary of the further properties *)

(** What a type name asks of a value. *)
Definition has_type (t : string) (v : value) : Prop :=
  match v with
  | PNone => t = "null"
  | PBool _ => t = "boolean"
  | PInt _ => t = "integer" \/ t = "number"
  | PFloat _ => t = "number"
  | PStr _ => t = "string"
  | PList _ => t = "array"
  | PDict _ => t = "object"
  end.

(** Values without a NaN float.  A NaN is the one value that is not equal
    to itself, so the one for which [in] (which also accepts an identical
    object) and [==] can differ. *)
Fixpoint nan_free (v : value) : bool :=
  match v with
  | PFloat S754_nan => false
  | PList l => forallb nan_free l
  | PDict d => forallb (fun kv => nan_free (snd kv)) d
  | _ => true
  end.

(** Schemas of the expected shape: a dict whose [type] is a [str], whose
    [enum] is a list or [None], whose [required] is a list of hashable
    values, whose [properties] is a dict of such schemas and whose [items]
    is such a schema or a falsy value.  Other keys are free. *)
Fixpoint wf_schema (s : value) : bool :=
  match s with
  | PDict sd =>
      forallb
        (fun kv =>
           if String.eqb (fst kv) "type" then isinstance_str (snd kv)
           else if String.eqb (fst kv) "enum" then
             match snd kv with PList _ | PNone => true | _ => false end
           else if String.eqb (fst kv) "required" then
             match snd kv with PList l => forallb hashable l | _ => false end
           else if String.eqb (fst kv) "properties" then
             match snd kv with
             | PDict props => forallb (fun p => wf_schema (snd p)) props
             | _ => false
             end
           else if String.eqb (fst kv) "items" then
             negb (truthy (snd kv)) || wf_schema (snd kv)
           else true)
        sd
  | _ => false
  end.

(** The condition [wf_schema] puts on one entry of a schema. *)
Definition entry_ok (k : string) (v : value) : bool :=
  if String.eqb k "type" then isinstance_str v
  else if String.eqb k "enum" then
    match v with PList _ | PNone => true | _ => false end
  else if String.eqb k "required" then
    match v with PList l => forallb hashable l | _ => false end
  else if String.eqb k "properties" then
    match v with
    | PDict props => forallb (fun p => wf_schema (snd p)) props
    | _ => false
    end
  else if String.eqb k "items" then negb (truthy v) || wf_schema v
  else true.

(** What a schema asks of a value, read as a relation: the type, when one
    is given; membership in [enum]; for an object under [type: object] the
    required keys, the schemas of the properties present and, with
    [additionalProperties: false], no other key; for an array under
    [type: array] the item schema on every element. *)
#[local] Set Warnings "-register-all".
Inductive conforms : value -> value -> Prop :=
| conforms_node (data : value) (sd : dict) :
    (forall t, dict_get sd "type" PNone = PStr t -> t <> EmptyString ->
               has_type t data) ->
    (forall l, dict_get sd "enum" PNone = PList l ->
               exists e, In e l /\ py_eq e data = true) ->
    (forall d, data = PDict d -> dict_get sd "type" PNone = PStr "object" ->
       (forall required, dict_get sd "required" (PList []) = PList required ->
          forall key, In key required -> key_present d key = true) /\
       (forall props, dict_get sd "properties" (PDict []) = PDict props ->
          (forall key sub v, In (key, sub) props -> lookup key d = Some v ->
                             conforms v sub) /\
          (dict_get sd "additionalProperties" (PBool true) = PBool false ->
           forall k, In k (keys d) -> In k (keys props)))) ->
    (forall l, data = PList l -> dict_get sd "type" PNone = PStr "array" ->
       truthy (dict_get sd "items" PNone) = true ->
       Forall (fun v => conforms v (dict_get sd "items" PNone)) l) ->
    conforms data (PDict sd).

(** The result of a computation, mapped when there is one. *)
Definition map_ok {A B : Type} (f : A -> B) (c : res A) : res B :=
  match c with
  | Ok a => Ok (f a)
  | Raise e => Raise e
  end.

Definition unsupported_message (path : Path) : string :=
  "Unsupported config format '" ++ suffix path
    ++ "'. Supported formats: .ini, .json, .toml.".

(** Decoders whose every failure is a [ValueError], and a file system with
    one unreadable file. *)
Definition careful_decoders : Decoders :=
  mkDecoders
    (fun text => if String.eqb text "[1, true, null]"
                 then Ok (PList [PInt 1; PBool true; PNone])
                 else Raise (JSONDecodeError "Expecting value"))
    (fun text => if String.eqb text "n = 1"
                 then Ok (PDict [("n", PInt 1)])
                 else Raise (TOMLDecodeError "Invalid statement"))
    (fun text => Raise (UnicodeDecodeError "invalid start byte")).

Definition locked_fs : FileSystem :=
  mkFileSystem (fun _ => Ok true)
               (fun p => if String.eqb (path_str p) "app.json"
                         then Ok "[1, true, null]"
                         else Raise (OSError "Permission denied")).

(** A file system on which the test for existence itself fails, as it does
    for a name longer than the system allows. *)
Definition long_name_fs : FileSystem :=
  mkFileSystem (fun _ => Raise (OSError "File name too long"))
               (fun _ => Raise (OSError "File name too long")).

Fixpoint zeros (n : nat) : string :=
  match n with
  | O => EmptyString
  | S k => String "0" (zeros k)
  end.

(** A TOML file with one integer, written in hexadecimal: 16^3600, of 4335
    decimal digits.  [tomllib] reads it; it cannot be rendered. *)
Definition wide_toml : string := "n = 0x1" ++ zeros 3600.

Definition wide_decoders : Decoders :=
  mkDecoders
    (fun _ => Raise (JSONDecodeError "Expecting value"))
    (fun text => if String.eqb text wide_toml
                 then Ok (PDict [("n", PInt (16 ^ 3600))])
                 else Raise (TOMLDecodeError "Invalid statement"))
    (fun _ => Raise (ConfigParserError "File contains no section headers.")).

(* ====================================================================== *)
(** * Properties *)
(* ====================================================================== *)

(** ** The error monad *)

Lemma bind_Ok {A B : Type} (c : res A) (k : A -> res B) (b : B) :
  bind c k = Ok b -> exists a, c = Ok a /\ k a = Ok b.
Proof.
  destruct c as [a | e]; simpl; intros H.
  - exists a. split; [reflexivity | exact H].
  - discriminate H.
Qed.

Ltac bind_inv H :=
  let a := fresh "a" in
  let Ha := fresh "Ha" in
  apply bind_Ok in H; destruct H as [a [Ha H]].

(** ** Text *)

Lemma append_nil_r (s : string) : s ++ EmptyString = s.
Proof. induction s as [| c s IH]; simpl; [reflexivity | now rewrite IH]. Qed.

Lemma append_assoc (a b c : string) : (a ++ b) ++ c = a ++ (b ++ c).
Proof. induction a as [| x a IH]; simpl; [reflexivity | now rewrite IH]. Qed.

(** ** Rendering, on a few values *)

Example repr_float_tenth : repr_float (S754_finite false 7205759403792794 (-56)) = "0.1".
Proof. vm_compute. reflexivity. Qed.

Example repr_float_1e23 : repr_float (S754_finite false 5960464477539062 24) = "1e+23".
Proof. vm_compute. reflexivity. Qed.

Example repr_float_small : repr_float (S754_finite true 1 (-1074)) = "-5e-324".
Proof. vm_compute. reflexivity. Qed.

Example repr_float_whole : repr_float (S754_finite false 5 (-1)) = "2.5"
                           /\ repr_float (S754_finite false 1 4) = "16.0".
Proof. vm_compute. split; reflexivity. Qed.

Example repr_str_quotes : repr_str "it's" = String dquote ("it's" ++ char dquote)
                          /\ repr_str "two" = "'two'".
Proof. vm_compute. split; reflexivity. Qed.

Example repr_nested :
  repr (PDict [("a", PList [PInt (-1); PBool false; PNone; PStr "x"])]) =
  "{'a': [-1, False, None, 'x']}".
Proof. vm_compute. reflexivity. Qed.

(** ** Dictionaries *)

Lemma on_item_lookup {A : Type} (key : string) (found : value -> A) (missing : A)
    (d : dict) :
  on_item key found missing d =
  match lookup key d with Some v => found v | None => missing end.
Proof.
  induction d as [| [k v] d IH]; simpl; [reflexivity |].
  destruct (String.eqb key k); [reflexivity | exact IH].
Qed.

Lemma lookup_In (key : string) (d : dict) (v : value) :
  lookup key d = Some v -> In (key, v) d.
Proof.
  induction d as [| [k x] d IH]; simpl; [discriminate |].
  destruct (String.eqb_spec key k) as [-> | _].
  - intros [= ->]. now left.
  - intros H. right. now apply IH.
Qed.

(** ** The unfolding of [_validate_schema], in the shape of the source *)

Lemma _validate_schema_eq (data schema : value) (path : string) :
  _validate_schema data schema path =
  (let errors := [] in
   schema_type <- get schema "type" PNone ;;
   type_error <- (if truthy schema_type then _check_type data schema_type else Ok None) ;;
   if type_error_truthy type_error
   then Ok (append errors (path ++ ": " ++ type_error_str type_error))
   else
     enum_values <- get schema "enum" PNone ;;
     errors <- (if negb (is_None enum_values)
                then present <- py_in data enum_values ;;
                     if negb present
                     then shown <- py_repr data ;;
                          allowed <- py_repr enum_values ;;
                          Ok (append errors
                                (path ++ ": value " ++ shown
                                   ++ " is not in allowed set " ++ allowed))
                     else Ok errors
                else Ok errors) ;;
     if py_eq schema_type (PStr "object") && isinstance_Mapping data then
       match data with
       | PDict d => errs <- _validate_object d schema path ;; Ok (extend errors errs)
       | _ => Ok errors
       end
     else if py_eq schema_type (PStr "array") && isinstance_Sequence data
             && negb (isinstance_str_bytes data) then
       match data with
       | PList l =>
           item_schema <- get schema "items" PNone ;;
           if truthy item_schema
           then items_loop _validate_schema item_schema path l 0 errors
           else Ok errors
       | _ => Ok errors
       end
     else Ok errors)%py.
Proof. destruct data; reflexivity. Qed.

(** ** _check_type *)

Lemma checkers_get_str (t : string) : checkers_get (PStr t) = Ok (assoc t checkers).
Proof. reflexivity. Qed.

Lemma assoc_recognized {A : Type} (t : string) (l : list (string * A)) (a : A) :
  assoc t l = Some a -> In t (map fst l).
Proof.
  induction l as [| [k x] l IH]; simpl; [discriminate |].
  destruct (String.eqb_spec t k) as [-> | _]; [now left | intros H; right; now apply IH].
Qed.

Lemma assoc_unrecognized {A : Type} (t : string) (l : list (string * A)) :
  assoc t l = None <-> ~ In t (map fst l).
Proof.
  induction l as [| [k x] l IH]; simpl.
  - split; [intros _ [] | reflexivity].
  - destruct (String.eqb_spec t k) as [-> | Hne].
    + split; [discriminate | intros H; exfalso; apply H; now left].
    + rewrite IH. split.
      * intros H [Hk | Hin]; [now apply Hne | now apply H].
      * intros H Hin. apply H. now right.
Qed.

Lemma recognized_truthy (t : string) (check : value -> bool) :
  assoc t checkers = Some check -> str_truthy t = true.
Proof.
  intros H. apply assoc_recognized in H. simpl in H.
  repeat (destruct H as [<- | H]; [reflexivity |]). destruct H.
Qed.

Lemma py_repr_renderable (v : value) :
  renderable v = true -> py_repr v = Ok (repr v).
Proof. intros H. unfold py_repr. now rewrite H. Qed.

Lemma py_repr_Ok (v : value) (text : string) :
  py_repr v = Ok text -> text = repr v.
Proof.
  unfold py_repr. destruct (renderable v); [| discriminate]. now intros [= <-].
Qed.

Lemma py_str_Ok (v : value) (text : string) :
  py_str v = Ok text -> text = str v.
Proof.
  destruct v; simpl; try apply py_repr_Ok. now intros [= <-].
Qed.

Lemma _check_type_mismatch (v : value) (t : string) (check : value -> bool) :
  assoc t checkers = Some check -> check v = false ->
  renderable v = true ->
  _check_type v (PStr t) =
  Ok (Some ("Expected type '" ++ t ++ "' but received value " ++ repr v)).
Proof.
  intros Ht Hc Hr. unfold _check_type. rewrite checkers_get_str, Ht.
  cbn [bind py_str]. now rewrite Hc, (py_repr_renderable v Hr).
Qed.

Lemma _check_type_unknown (v : value) (t : string) :
  assoc t checkers = None ->
  _check_type v (PStr t) = Ok (Some ("Unknown schema type '" ++ t ++ "'")).
Proof.
  intros Ht. unfold _check_type. rewrite checkers_get_str, Ht. reflexivity.
Qed.

(** A type error reported by [_check_type] ends the node: the single
    message is returned whatever else the schema holds. *)
Lemma _validate_schema_type_error (data : value) (d : dict) (path : string)
    (t : string) (e : string) :
  dict_get d "type" PNone = PStr t -> str_truthy t = true ->
  _check_type data (PStr t) = Ok (Some e) -> str_truthy e = true ->
  _validate_schema data (PDict d) path = Ok [path ++ ": " ++ e].
Proof.
  intros Ht Htt Hc He. rewrite _validate_schema_eq. simpl get.
  rewrite Ht. cbn [bind truthy]. rewrite Htt, Hc. cbn [bind type_error_truthy].
  rewrite He. reflexivity.
Qed.

(** C3, as stated, fails on a value that cannot be rendered: against
    [{type: "string"}] the integer 10^4300, of 4301 digits, fails the type
    check, and building the message raises [ValueError] where the claim has
    the one mismatch error returned. *)
Lemma type_mismatch_counterexample :
  renderable (PInt (10 ^ 4300)) = false /\
  _validate_schema (PInt (10 ^ 4300)) (PDict [("type", PStr "string")]) "$" =
  Raise int_limit_error /\
  forall errors : list string,
    _validate_schema (PInt (10 ^ 4300)) (PDict [("type", PStr "string")]) "$" <>
    Ok errors.
Proof.
  assert (H : _validate_schema (PInt (10 ^ 4300))
                (PDict [("type", PStr "string")]) "$" = Raise int_limit_error)
    by (vm_compute; reflexivity).
  split; [vm_compute; reflexivity |]. split; [exact H |].
  intros errors. rewrite H. discriminate.
Qed.

(** C3 (amended). When the schema node declares one of the recognized
    types and the value fails that type's check, and the value can be
    rendered (it holds no integer of more than 4300 digits), the validator
    returns exactly one error, "<path>: Expected type '<type>' but received
    value <repr of the value>", whatever [enum], [required], [properties],
    [items] or [additionalProperties] the node holds: none of them is looked
    at. *)
Theorem type_mismatch_short_circuit (data : value) (d : dict) (path t : string)
    (check : value -> bool) :
  dict_get d "type" PNone = PStr t ->
  assoc t checkers = Some check ->
  check data = false ->
  renderable data = true ->
  _validate_schema data (PDict d) path =
  Ok [path ++ ": Expected type '" ++ t ++ "' but received value " ++ repr data].
Proof.
  intros Ht Hk Hc Hr.
  apply (_validate_schema_type_error data d path t); auto.
  - exact (recognized_truthy t check Hk).
  - now apply (_check_type_mismatch data t check).
Qed.

(** The instance named in the specification: schema
    [{type: "object", required: ["x"]}] against the string "not an object"
    gives the type mismatch alone, and no missing-key error. *)
Lemma type_mismatch_short_circuit_witness :
  _validate_schema (PStr "not an object")
    (PDict [("type", PStr "object"); ("required", PList [PStr "x"])]) "$" =
  Ok ["$: Expected type 'object' but received value 'not an object'"].
Proof.
  apply (type_mismatch_short_circuit (PStr "not an object")
           [("type", PStr "object"); ("required", PList [PStr "x"])]
           "$" "object" (fun x => isinstance_Mapping x));
    reflexivity.
Defined.

(** C6, as stated, fails on the empty type string: it is none of the seven
    recognized names, yet [if schema_type:] skips the type check, no
    "Unknown schema type" error is emitted and the enum check still runs. *)
Lemma unknown_type_counterexample :
  ~ In EmptyString recognized_types /\
  _validate_schema (PInt 1)
    (PDict [("type", PStr EmptyString); ("enum", PList [PInt 2])]) "$" =
  Ok ["$: value 1 is not in allowed set [2]"] /\
  _validate_schema (PInt 1)
    (PDict [("type", PStr EmptyString); ("enum", PList [PInt 2])]) "$" <>
  Ok ["$: Unknown schema type ''"].
Proof.
  split; [| split].
  - simpl. intros H. repeat (destruct H as [H | H]; [discriminate H |]). exact H.
  - reflexivity.
  - discriminate.
Qed.

(** C6 (amended). For every schema node whose declared [type] is a
    non-empty string that is not one of the seven recognized types, the
    validator returns the single error "<path>: Unknown schema type '<type>'"
    and checks nothing else at that node. *)
Theorem unknown_type_single_error (data : value) (d : dict) (path t : string) :
  dict_get d "type" PNone = PStr t ->
  t <> EmptyString ->
  ~ In t recognized_types ->
  _validate_schema data (PDict d) path =
  Ok [path ++ ": Unknown schema type '" ++ t ++ "'"].
Proof.
  intros Ht Hne Hun.
  apply (_validate_schema_type_error data d path t); auto.
  - destruct t; [now elim Hne | reflexivity].
  - apply _check_type_unknown. now apply assoc_unrecognized.
Qed.

Lemma unknown_type_single_error_witness :
  _validate_schema (PDict [("a", PInt 1)])
    (PDict [("type", PStr "strng"); ("enum", PList []); ("required", PInt 3)]) "$.x" =
  Ok ["$.x: Unknown schema type 'strng'"].
Proof.
  apply (unknown_type_single_error (PDict [("a", PInt 1)])
           [("type", PStr "strng"); ("enum", PList []); ("required", PInt 3)]
           "$.x" "strng").
  - reflexivity.
  - discriminate.
  - simpl. intros H. repeat (destruct H as [H | H]; [discriminate H |]). exact H.
Defined.

(** C7. A boolean fails the "integer" and the "number" check, with the
    type-mismatch message, although [bool] is a subclass of [int]; and the
    "boolean" check passes exactly for booleans. *)
Theorem bool_is_not_a_number :
  (forall b : bool,
     _check_type (PBool b) (PStr "integer") =
       Ok (Some ("Expected type 'integer' but received value " ++ repr (PBool b))) /\
     _check_type (PBool b) (PStr "number") =
       Ok (Some ("Expected type 'number' but received value " ++ repr (PBool b))) /\
     isinstance_int (PBool b) = true) /\
  (forall (b : bool) (path : string),
     _validate_schema (PBool b) (PDict [("type", PStr "integer")]) path =
       Ok [path ++ ": Expected type 'integer' but received value " ++ repr (PBool b)] /\
     _validate_schema (PBool b) (PDict [("type", PStr "number")]) path =
       Ok [path ++ ": Expected type 'number' but received value " ++ repr (PBool b)]) /\
  (forall v : value,
     _check_type v (PStr "boolean") = Ok None <-> exists b, v = PBool b).
Proof.
  split; [| split].
  - intros b. repeat split; reflexivity.
  - intros b path. split; reflexivity.
  - intros v. split.
    + destruct v as [| b | | | | |]; try (intros _; now exists b);
        unfold _check_type; cbn; destruct (py_repr _); discriminate.
    + intros [b ->]. reflexivity.
Qed.

(** ** Enum membership *)

Lemma py_eq_bool_int (b : bool) :
  py_eq (PBool b) (PInt (int_of_bool b)) = true /\
  py_eq (PInt (int_of_bool b)) (PBool b) = true.
Proof. destruct b; split; reflexivity. Qed.

(** C10. Enum membership uses [==], under which [True == 1] and
    [False == 0]: the boolean [True] passes [{enum: [1, 2, 3]}] and the
    integer [1] passes [{enum: [True]}] without an enum error, although the
    type checks tell the two apart. *)
Theorem enum_uses_value_equality :
  _validate_schema (PBool true)
    (PDict [("enum", PList [PInt 1; PInt 2; PInt 3])]) "$" = Ok [] /\
  _validate_schema (PInt 1) (PDict [("enum", PList [PBool true])]) "$" = Ok [] /\
  (forall b : bool,
     py_eq (PBool b) (PInt (int_of_bool b)) = true /\
     py_eq (PInt (int_of_bool b)) (PBool b) = true) /\
  _check_type (PBool true) (PStr "integer") <> Ok None /\
  _check_type (PInt 1) (PStr "boolean") <> Ok None.
Proof.
  repeat split; try reflexivity; try discriminate; apply py_eq_bool_int.
Qed.

(** ** The facade *)

(** C8. For a path that does not exist, [validate] returns at once, whatever
    the decoders and the schema are: with [strict] off the result holds the
    single warning "Config file '<path>' does not exist.", no error, and is
    valid; with [strict] on the same text is the single error and the result
    is not valid. *)
Theorem missing_file_result (dec : Decoders) (fs : FileSystem)
    (self : ConfigValidationSuite) (path : Path) (schema : value) :
  fs_exists fs path = Ok false ->
  validate dec fs self path schema =
  Ok (if strict self
      then mkValidationResult false [missing_message path] []
      else mkValidationResult true [] [missing_message path]).
Proof.
  intros H. unfold validate, validate_run. rewrite H. simpl.
  destruct (strict self); reflexivity.
Qed.

Lemma missing_file_result_witness :
  validate failing_decoders empty_fs (mkSuite false) (mkPath "conf/app.json" ".json")
    (PDict [("type", PStr "object")]) =
  Ok (mkValidationResult true [] ["Config file 'conf/app.json' does not exist."]) /\
  validate failing_decoders empty_fs (mkSuite true) (mkPath "conf/app.json" ".json")
    (PDict [("type", PStr "object")]) =
  Ok (mkValidationResult false ["Config file 'conf/app.json' does not exist."] []).
Proof.
  split.
  - apply (missing_file_result failing_decoders empty_fs (mkSuite false)). reflexivity.
  - apply (missing_file_result failing_decoders empty_fs (mkSuite true)). reflexivity.
Defined.

Lemma validate_valid_flag (dec : Decoders) (fs : FileSystem)
    (self : ConfigValidationSuite) (path : Path) (schema : value)
    (r : ValidationResult) :
  validate dec fs self path schema = Ok r ->
  valid r = negb (list_truthy (errors r)).
Proof.
  unfold validate, validate_run.
  destruct (fs_exists fs path) as [[|] | e]; cbn [bind negb]; [| | discriminate].
  - destruct (existsb (String.eqb (lower (suffix path))) SUPPORTED_FORMATS); cbn [negb].
    + destruct (_load_config dec fs path) as [data | exc].
      * intros H. bind_inv H. now injection H as <-.
      * destruct (caught exc); [| discriminate].
        intros H. now injection H as <-.
    + intros H. now injection H as <-.
  - intros H. now injection H as <-.
Qed.

(** C2. Every [ValidationResult] that [validate] returns has
    [valid == (errors is empty)]; the flag is determined by the error list
    alone, so two results with the same errors have the same flag whatever
    their warnings are. *)
Theorem valid_iff_no_errors (dec : Decoders) (fs : FileSystem)
    (self : ConfigValidationSuite) (path : Path) (schema : value)
    (r : ValidationResult) :
  validate dec fs self path schema = Ok r ->
  (valid r = true <-> errors r = []) /\
  (forall dec' fs' self' path' schema' r',
     validate dec' fs' self' path' schema' = Ok r' ->
     errors r' = errors r -> valid r' = valid r).
Proof.
  intros H. apply validate_valid_flag in H. split.
  - rewrite H. destruct (errors r); simpl; split; (reflexivity || discriminate).
  - intros dec' fs' self' path' schema' r' H' He.
    apply validate_valid_flag in H'. now rewrite H, H', He.
Qed.

Lemma valid_iff_no_errors_witness :
  let r := mkValidationResult true [] ["Config file 'conf/app.json' does not exist."] in
  (valid r = true <-> errors r = []) /\
  (forall dec' fs' self' path' schema' r',
     validate dec' fs' self' path' schema' = Ok r' ->
     errors r' = errors r -> valid r' = valid r).
Proof.
  exact (valid_iff_no_errors failing_decoders empty_fs (mkSuite false)
           (mkPath "conf/app.json" ".json") (PDict [("type", PStr "object")])
           _ eq_refl).
Defined.

(** What [validate] does with a failed load: an [OSError] or a [ValueError]
    becomes the single error "Failed to load config: <cause>". *)
Lemma load_failure_caught (dec : Decoders) (fs : FileSystem)
    (self : ConfigValidationSuite) (path : Path) (schema : value) (exc : exn) :
  fs_exists fs path = Ok true ->
  existsb (String.eqb (lower (suffix path))) SUPPORTED_FORMATS = true ->
  _load_config dec fs path = Raise exc ->
  caught exc = true ->
  validate dec fs self path schema =
  Ok (mkValidationResult false ["Failed to load config: " ++ exn_str exc] []).
Proof.
  intros He Hs Hl Hc. unfold validate, validate_run.
  rewrite He. cbn [bind]. rewrite Hs, Hl. simpl. now rewrite Hc.
Qed.

(** C1 (the defect). A failure of the INI decoder is a [configparser.Error],
    which is neither an [OSError] nor a [ValueError]: [validate] does not
    catch it, and the exception reaches the caller instead of a result with
    "Failed to load config: <cause>". *)
Theorem ini_decode_failure_propagates (dec : Decoders) (fs : FileSystem)
    (self : ConfigValidationSuite) (path : Path) (schema : value)
    (content msg : string) :
  fs_exists fs path = Ok true ->
  lower (suffix path) = ".ini" ->
  fs_open fs path = Ok content ->
  configparser_load dec content = Raise (ConfigParserError msg) ->
  validate dec fs self path schema = Raise (ConfigParserError msg).
Proof.
  intros He Hs Ho Hd. unfold validate, validate_run, _load_config.
  rewrite He, Hs, Ho. simpl. now rewrite Hd.
Qed.

Lemma ini_decode_failure_propagates_witness :
  validate failing_decoders (one_file_fs "settings.ini" headerless_ini)
    (mkSuite false) (mkPath "settings.ini" ".ini") PNone =
  Raise (ConfigParserError "File contains no section headers.").
Proof.
  apply (ini_decode_failure_propagates failing_decoders
           (one_file_fs "settings.ini" headerless_ini) (mkSuite false)
           (mkPath "settings.ini" ".ini") PNone headerless_ini);
    reflexivity.
Defined.

(** ** Ordering of text, and [sorted] *)

Lemma ascii_compare_refl (a : ascii) : Ascii.compare a a = Eq.
Proof. unfold Ascii.compare. apply N.compare_refl. Qed.

Lemma string_compare_lt_trans (a b c : string) :
  String.compare a b = Lt -> String.compare b c = Lt -> String.compare a c = Lt.
Proof.
  revert b c. induction a as [| x a IH]; intros [| y b] [| z c]; simpl;
    try discriminate; try reflexivity.
  unfold Ascii.compare.
  destruct (N.compare_spec (N_of_ascii x) (N_of_ascii y)) as [Hxy | Hxy | Hxy];
    try discriminate;
    destruct (N.compare_spec (N_of_ascii y) (N_of_ascii z)) as [Hyz | Hyz | Hyz];
    try discriminate; intros H1 H2.
  - rewrite Hxy, Hyz, N.compare_refl. now apply (IH b c).
  - rewrite Hxy. now rewrite (proj2 (N.compare_lt_iff _ _) Hyz).
  - rewrite <- Hyz. now rewrite (proj2 (N.compare_lt_iff _ _) Hxy).
  - now rewrite (proj2 (N.compare_lt_iff _ _) (N.lt_trans _ _ _ Hxy Hyz)).
Qed.

Lemma string_compare_refl (a : string) : String.compare a a = Eq.
Proof.
  induction a as [| x a IH]; simpl; [reflexivity |].
  now rewrite ascii_compare_refl.
Qed.

Lemma string_le_trans (a b c : string) :
  string_le a b -> string_le b c -> string_le a c.
Proof.
  unfold string_le, String.leb. intros Hab Hbc.
  destruct (String.compare a b) eqn:Eab; try discriminate;
    destruct (String.compare b c) eqn:Ebc; try discriminate.
  - apply String.compare_eq_iff in Eab, Ebc. subst. now rewrite string_compare_refl.
  - apply String.compare_eq_iff in Eab. subst. now rewrite Ebc.
  - apply String.compare_eq_iff in Ebc. subst. now rewrite Eab.
  - now rewrite (string_compare_lt_trans a b c).
Qed.

Lemma insert_sorted_perm (k : string) (l : list string) :
  Permutation (insert_sorted k l) (k :: l).
Proof.
  induction l as [| x r IH]; simpl; [apply Permutation_refl |].
  destruct (String.leb k x); [apply Permutation_refl |].
  apply perm_trans with (x :: k :: r); [now apply perm_skip | apply perm_swap].
Qed.

Lemma sorted_perm (l : list string) : Permutation (sorted l) l.
Proof.
  induction l as [| k l IH]; simpl; [apply perm_nil |].
  apply perm_trans with (k :: sorted l);
    [apply insert_sorted_perm | now apply perm_skip].
Qed.

Lemma insert_sorted_ordered (k : string) (l : list string) :
  StronglySorted string_le l -> StronglySorted string_le (insert_sorted k l).
Proof.
  induction l as [| x r IH]; simpl; intros Hs.
  - constructor; constructor.
  - inversion Hs as [| ? ? Hr Hx]; subst.
    destruct (String.leb k x) eqn:Hkx.
    + constructor; [exact Hs |].
      constructor; [exact Hkx |].
      eapply Forall_impl; [| exact Hx].
      intros y Hy. now apply (string_le_trans k x y).
    + constructor; [now apply IH |].
      apply (Permutation_Forall (Permutation_sym (insert_sorted_perm k r))).
      constructor; [| exact Hx].
      destruct (String.leb_total k x) as [H | H]; [congruence | exact H].
Qed.

Lemma sorted_ordered (l : list string) : StronglySorted string_le (sorted l).
Proof.
  induction l as [| k l IH]; simpl; [constructor | now apply insert_sorted_ordered].
Qed.

(** [sorted] gives one list for every order of the same elements. *)
Lemma sorted_lists_equal (a b : list string) :
  StronglySorted string_le a -> StronglySorted string_le b ->
  Permutation a b -> a = b.
Proof.
  revert b. induction a as [| x a IH]; intros b Ha Hb Hp.
  - now apply Permutation_nil in Hp.
  - destruct b as [| y b]; [now apply Permutation_sym, Permutation_nil in Hp |].
    inversion Ha as [| ? ? Ha' Hx]; subst.
    inversion Hb as [| ? ? Hb' Hy]; subst.
    assert (Hxy : x = y).
    { assert (Hin1 : In x (y :: b))
        by (apply (Permutation_in x Hp); now left).
      assert (Hin2 : In y (x :: a))
        by (apply (Permutation_in y (Permutation_sym Hp)); now left).
      destruct Hin1 as [-> | Hin1]; [reflexivity |].
      destruct Hin2 as [-> | Hin2]; [reflexivity |].
      rewrite Forall_forall in Hx, Hy.
      apply String.leb_antisym; [exact (Hx y Hin2) | exact (Hy x Hin1)]. }
    subst y. f_equal. apply IH; auto.
    now apply Permutation_cons_inv in Hp.
Qed.

Lemma sorted_permutation (l l' : list string) :
  Permutation l l' -> sorted l = sorted l'.
Proof.
  intros Hp. apply sorted_lists_equal; try apply sorted_ordered.
  apply perm_trans with l; [apply sorted_perm |].
  apply perm_trans with l'; [exact Hp | apply Permutation_sym, sorted_perm].
Qed.

Lemma existsb_permutation {A : Type} (f : A -> bool) (l l' : list A) :
  Permutation l l' -> existsb f l = existsb f l'.
Proof.
  induction 1 as [| x l l' _ IH | x y l | l l' l'' _ IH1 _ IH2]; simpl.
  - reflexivity.
  - now rewrite IH.
  - now destruct (f x), (f y).
  - now rewrite IH1.
Qed.

(** C9. Two runs of [validate] on the same file contents, the same schema
    and the same [strict] setting end the same way, with the same flag, the
    same errors and the same warnings (or the same exception), although the
    runs may differ in what a run does not control: the order in which its
    hash seed makes the set [SUPPORTED_FORMATS] iterate, and the rest of
    the file system. *)
Theorem validate_deterministic (dec : Decoders)
    (formats1 formats2 : list string) (fs1 fs2 : FileSystem)
    (self : ConfigValidationSuite) (path : Path) (schema : value) :
  Permutation formats1 SUPPORTED_FORMATS ->
  Permutation formats2 SUPPORTED_FORMATS ->
  fs_exists fs1 path = fs_exists fs2 path ->
  fs_open fs1 path = fs_open fs2 path ->
  validate_run formats1 dec fs1 self path schema =
  validate_run formats2 dec fs2 self path schema.
Proof.
  intros H1 H2 He Ho.
  assert (Hp : Permutation formats1 formats2)
    by (apply perm_trans with SUPPORTED_FORMATS; [exact H1 | now apply Permutation_sym]).
  unfold validate_run, _load_config.
  rewrite He, Ho.
  rewrite (existsb_permutation _ _ _ Hp), (sorted_permutation _ _ Hp).
  reflexivity.
Qed.

Lemma validate_deterministic_witness :
  validate_run [".ini"; ".toml"; ".json"] sample_decoders
    (one_file_fs "notes.yaml" "n = 1") (mkSuite true)
    (mkPath "notes.yaml" ".yaml") PNone =
  validate_run [".toml"; ".json"; ".ini"] sample_decoders
    crowded_fs (mkSuite true)
    (mkPath "notes.yaml" ".yaml") PNone.
Proof.
  apply (validate_deterministic sample_decoders
           [".ini"; ".toml"; ".json"] [".toml"; ".json"; ".ini"]
           (one_file_fs "notes.yaml" "n = 1") crowded_fs).
  - unfold SUPPORTED_FORMATS.
    apply perm_trans with [".toml"; ".ini"; ".json"]; [apply perm_swap |].
    apply perm_trans with [".toml"; ".json"; ".ini"];
      [apply perm_skip, perm_swap | apply perm_swap].
  - unfold SUPPORTED_FORMATS.
    apply perm_trans with [".json"; ".toml"; ".ini"]; [apply perm_swap |].
    apply Permutation_refl.
  - reflexivity.
  - reflexivity.
Defined.

(** ** The loops of the validator *)

Section LoopFacts.
Variable recurse : value -> value -> string -> res (list string).

Lemma required_loop_spec (d : dict) (path : string) (required : list value)
    (errs0 errs : list string) :
  required_loop d path required errs0 = Ok errs ->
  errs = (errs0 ++ missing_errors d path required)%list.
Proof.
  revert errs0. induction required as [| key rest IH];
    cbn [required_loop]; intros errs0 H.
  - injection H as <-. now rewrite app_nil_r.
  - bind_inv H. rename a into present, Ha into Hin.
    bind_inv H. rename a into errs1, Ha into Hmsg.
    apply IH in H. subst errs.
    unfold missing_errors. cbn [filter].
    assert (Hp : present = key_present d key).
    { destruct key; simpl in Hin; try discriminate; now injection Hin as <-. }
    rewrite <- Hp. destruct present; cbn [negb] in *.
    + now injection Hmsg as <-.
    + bind_inv Hmsg. apply py_str_Ok in Ha. subst a. injection Hmsg as <-.
      cbn [map]. unfold append, missing_message_of. now rewrite <- app_assoc.
Qed.

Lemma properties_loop_spec (d : dict) (path : string) (props : dict)
    (errs0 errs : list string) :
  properties_loop recurse d path props errs0 = Ok errs ->
  exists rs, property_results_of recurse d path props rs /\
             errs = (errs0 ++ List.concat rs)%list.
Proof.
  unfold property_results_of.
  revert errs0. induction props as [| [key sub] rest IH]; simpl; intros errs0 H.
  - injection H as <-. exists []. split; [constructor | now rewrite app_nil_r].
  - bind_inv H. rewrite on_item_lookup in Ha.
    apply IH in H. destruct H as [rs [Hrs ->]].
    unfold dict_contains. destruct (lookup key d) as [v |] eqn:Hl.
    + exists (a :: rs). split.
      * constructor; [| exact Hrs]. exists v. now split.
      * unfold extend. simpl. now rewrite <- app_assoc.
    + injection Ha as <-. exists rs. split; [exact Hrs |].
      unfold extend. now rewrite app_nil_r.
Qed.

Lemma items_loop_spec (item_schema : value) (path : string) (l : list value)
    (start : Z) (errs0 errs : list string) :
  items_loop recurse item_schema path l start errs0 = Ok errs ->
  exists rs, item_results_of recurse item_schema path start l rs /\
             errs = (errs0 ++ List.concat rs)%list.
Proof.
  unfold item_results_of.
  revert start errs0. induction l as [| v rest IH]; simpl; intros start errs0 H.
  - injection H as <-. exists []. split; [constructor | now rewrite app_nil_r].
  - bind_inv H. apply IH in H. destruct H as [rs [Hrs ->]].
    exists (a :: rs). split.
    + constructor; [exact Ha | exact Hrs].
    + unfold extend. simpl. now rewrite <- app_assoc.
Qed.

End LoopFacts.

Lemma fold_append (f : string -> string) (ks : list string) (errs0 : list string) :
  fold_left (fun errors key => append errors (f key)) ks errs0 =
  (errs0 ++ map f ks)%list.
Proof.
  revert errs0. induction ks as [| k ks IH]; simpl; intros errs0.
  - now rewrite app_nil_r.
  - rewrite IH. unfold append. now rewrite <- app_assoc.
Qed.

(** ** The order of the errors of one node *)

Lemma _check_type_message_truthy (v expected : value) (e : string) :
  _check_type v expected = Ok (Some e) -> str_truthy e = true.
Proof.
  unfold _check_type. intros H. bind_inv H.
  destruct a as [check |].
  - destruct (negb (check v)); [| discriminate].
    bind_inv H. bind_inv H. now injection H as <-.
  - bind_inv H. now injection H as <-.
Qed.

Lemma validate_object_spec (d : dict) (sd : dict) (path : string)
    (errs : list string) :
  _validate_object d (PDict sd) path = Ok errs ->
  exists (required : list value) (props : dict) (rs : list (list string)),
    iter (dict_get sd "required" (PList [])) = Ok required /\
    dict_get sd "properties" (PDict []) = PDict props /\
    property_results d path props rs /\
    errs = (missing_errors d path required ++ List.concat rs ++
            unexpected_errors path
              (if is_False (dict_get sd "additionalProperties" (PBool true))
               then unexpected_keys d props else []))%list.
Proof.
  unfold _validate_object, validate_object_with. cbn [get bind]. intros H.
  bind_inv H. rename a into required, Ha into Hreq.
  bind_inv H. apply required_loop_spec in Ha. simpl in Ha. subst a.
  bind_inv H. rename a into props, Ha into Hprops.
  destruct (dict_get sd "properties" (PDict [])) as [| | | | | | props'] eqn:Hp;
    try discriminate Hprops.
  injection Hprops as <-.
  bind_inv H. apply (properties_loop_spec _validate_schema) in Ha.
  destruct Ha as [rs [Hrs ->]].
  exists required, props', rs. repeat split; auto.
  destruct (is_False (dict_get sd "additionalProperties" (PBool true))).
  - injection H as <-. rewrite fold_append. unfold unexpected_errors.
    now rewrite <- app_assoc.
  - injection H as <-. simpl. now rewrite app_nil_r.
Qed.

Lemma _validate_schema_shape (data schema : value) (path : string)
    (errs : list string) :
  _validate_schema data schema path = Ok errs ->
  exists (sd : dict) (T E R P U I : list string),
    schema = PDict sd /\
    errs = (T ++ E ++ R ++ P ++ U ++ I)%list /\
    node_shape data sd path T E R P U I.
Proof.
  unfold node_shape, node_parts.
  intros H. rewrite _validate_schema_eq in H.
  destruct schema as [| | | | | | sd]; try discriminate H.
  exists sd. cbn [get bind] in H. cbv zeta in H.
  set (schema_type := dict_get sd "type" PNone) in *.
  set (enum_values := dict_get sd "enum" PNone) in *.
  bind_inv H. rename a into type_error, Ha into Hcheck.
  destruct (type_error_truthy type_error) eqn:Htt.
  - (* the type check failed *)
    injection H as <-.
    destruct type_error as [e |]; [| discriminate Htt].
    exists [path ++ ": " ++ e], [], [], [], [], []. split; [reflexivity |].
    split; [reflexivity |]. left. exists e.
    destruct (truthy schema_type); [| discriminate Hcheck].
    repeat split; auto.
  - bind_inv H. rename a into E, Ha into Henum.
    assert (Htype : truthy schema_type = false \/
                    _check_type data schema_type = Ok None).
    { destruct (truthy schema_type); [right | now left].
      destruct type_error as [e |]; [| exact Hcheck].
      apply _check_type_message_truthy in Hcheck. simpl in Htt. congruence. }
    assert (HE : enum_segment data enum_values path E).
    { unfold enum_segment. destruct (is_None enum_values); simpl in Henum.
      - now injection Henum as <-.
      - bind_inv Henum. exists a. split; [exact Ha |].
        destruct a; cbn [negb] in Henum; [now injection Henum as <- |].
        bind_inv Henum. bind_inv Henum.
        apply py_repr_Ok in Ha0, Ha1. subst. now injection Henum as <-. }
    destruct data as [| b | z | f | s | l | d];
      cbn [isinstance_Mapping isinstance_Sequence isinstance_str_bytes negb] in H;
      rewrite ?andb_false_r, ?andb_true_r in H;
      try (cbn [andb] in H;
           match type of H with
           | context [if ?c then _ else _] => destruct c
           | _ => idtac
           end;
           injection H as <-;
           exists [], E, [], [], [], []; rewrite !app_nil_r;
           split; [reflexivity |]; split; [reflexivity |]; right;
           repeat split; auto; fail).
    + (* a list *)
      assert (Hobj : py_eq schema_type (PStr "object") && false = false)
        by apply andb_false_r.
      destruct (py_eq schema_type (PStr "array")) eqn:Harr.
      * cbn [get bind] in H.
        destruct (truthy (dict_get sd "items" PNone)) eqn:Hitems.
        -- apply (items_loop_spec _validate_schema) in H.
           destruct H as [rs [Hrs ->]].
           exists [], E, [], [], [], (List.concat rs).
           split; [reflexivity |]. split; [reflexivity |]. right.
           repeat split; auto.
           unfold item_segment. fold schema_type. rewrite Harr, Hitems. simpl.
           now exists rs.
        -- injection H as <-.
           exists [], E, [], [], [], []. rewrite !app_nil_r.
           split; [reflexivity |]. split; [reflexivity |]. right.
           repeat split; auto.
           unfold item_segment. fold schema_type. now rewrite Harr, Hitems.
      * injection H as <-.
        exists [], E, [], [], [], []. rewrite !app_nil_r.
        split; [reflexivity |]. split; [reflexivity |]. right.
        repeat split; auto.
        unfold item_segment. fold schema_type. now rewrite Harr.
    + (* a dict *)
      destruct (py_eq schema_type (PStr "object")) eqn:Hobj.
      * bind_inv H. injection H as <-.
        apply validate_object_spec in Ha.
        destruct Ha as [required [props [rs [Hreq [Hprops [Hrs ->]]]]]].
        set (ks := if is_False (dict_get sd "additionalProperties" (PBool true))
                   then unexpected_keys d props else []).
        exists [], E, (missing_errors d path required), (List.concat rs),
               (unexpected_errors path ks), [].
        split; [reflexivity |]. split.
        { unfold extend. simpl. now rewrite !app_nil_r. }
        right. repeat split; auto.
        unfold object_segments. fold schema_type. rewrite Hobj.
        exists required, props, rs, ks. repeat split; auto.
        unfold ks. now destruct (is_False _).
      * destruct (py_eq schema_type (PStr "array") && false); injection H as <-;
          exists [], E, [], [], [], []; rewrite !app_nil_r;
          (split; [reflexivity |]); (split; [reflexivity |]); right;
          repeat split; auto;
          unfold object_segments; fold schema_type; now rewrite Hobj.
Qed.

(** C4. The errors returned for a node are, in this order: the type-check
    failure, which then stands alone; otherwise the enum failure, the
    missing-required-key errors in the declared order of [required], the
    errors from recursing into the properties present in the value in the
    declared order of [properties], the unexpected-key errors in sorted key
    order, and the errors from recursing into the items by index. *)
Theorem error_order (data schema : value) (path : string) (errs : list string) :
  _validate_schema data schema path = Ok errs ->
  exists (sd : dict) (T E R P U I : list string),
    schema = PDict sd /\
    errs = (T ++ E ++ R ++ P ++ U ++ I)%list /\
    node_report data sd path T E R P U I.
Proof.
  intros H. apply _validate_schema_shape in H.
  destruct H as [sd [T [E [R [P [U [I [Hs [He Hparts]]]]]]]]].
  exists sd, T, E, R, P, U, I. split; [exact Hs |]. split; [exact He |].
  destruct Hparts as [Hfail | [HT [Hty [HE [HO HI]]]]]; [now left | right].
  repeat split; auto.
  unfold object_segments in *.
  destruct data as [| | | | | | d]; auto.
  destruct (py_eq (dict_get sd "type" PNone) (PStr "object")); auto.
  destruct HO as [required [props [rs [ks [Hreq [Hprops [HR [Hrs [HP [HU Hks]]]]]]]]]].
  exists required, props, rs, ks. repeat split; auto; subst ks.
  - apply sorted_ordered.
  - apply sorted_perm.
Qed.

Lemma error_order_witness :
  _validate_schema sample_data sample_schema "$" = Ok sample_errors /\
  exists (sd : dict) (T E R P U I : list string),
    sample_schema = PDict sd /\
    sample_errors = (T ++ E ++ R ++ P ++ U ++ I)%list /\
    node_report sample_data sd "$" T E R P U I.
Proof.
  split; [reflexivity |].
  exact (error_order sample_data sample_schema "$" sample_errors eq_refl).
Defined.

(** ** Error paths *)

Lemma located_here (data : value) (path msg : string) :
  located data path (path ++ ": " ++ msg).
Proof. exists EmptyString, msg. split; [constructor | reflexivity]. Qed.

Lemma located_member (d : dict) (key : string) (v : value) (path e : string) :
  lookup key d = Some v ->
  located v (path ++ "." ++ key) e -> located (PDict d) path e.
Proof.
  intros Hl [loc [msg [Hp ->]]].
  exists ("." ++ key ++ loc), msg. split; [now apply (path_member d key v) |].
  now rewrite !append_assoc.
Qed.

Lemma located_element (l : list value) (i : nat) (v : value) (path e : string) :
  nth_error l i = Some v ->
  located v (path ++ "[" ++ repr_int (Z.of_nat i) ++ "]") e ->
  located (PList l) path e.
Proof.
  intros Hn [loc [msg [Hp ->]]].
  exists ("[" ++ repr_int (Z.of_nat i) ++ "]" ++ loc), msg.
  split; [now apply (path_element l i v) |].
  now rewrite !append_assoc.
Qed.

Lemma Forall_concat_Forall2 {A B : Type} (R : A -> list B -> Prop) (Q : B -> Prop)
    (xs : list A) (rs : list (list B)) :
  Forall2 R xs rs ->
  (forall x r, In x xs -> R x r -> Forall Q r) ->
  Forall Q (List.concat rs).
Proof.
  induction 1 as [| x r xs rs Hxr _ IH]; simpl; intros HQ; [constructor |].
  apply Forall_app. split.
  - apply (HQ x r); [now left | exact Hxr].
  - apply IH. intros x' r' Hin. apply HQ. now right.
Qed.

Lemma enumerate_In (l : list value) (start i : Z) (v : value) :
  In (i, v) (enumerate start l) ->
  exists n : nat, i = start + Z.of_nat n /\ nth_error l n = Some v.
Proof.
  revert start. induction l as [| x r IH]; simpl; intros start; [intros [] |].
  intros [H | H].
  - injection H as <- <-. exists O. split; [lia | reflexivity].
  - apply IH in H. destruct H as [n [-> Hn]].
    exists (S n). split; [lia | exact Hn].
Qed.

Lemma Forall_map_located (data : value) (path : string) (f : string -> string)
    (ks : list string) :
  Forall (located data path) (map (fun k => path ++ ": " ++ f k) ks).
Proof.
  induction ks as [| k ks IH]; simpl; constructor; [apply located_here | exact IH].
Qed.

(** Every error of a run carries the path of a location inside the data. *)
Lemma _validate_schema_located (data : value) :
  forall (schema : value) (path : string) (errs : list string),
    _validate_schema data schema path = Ok errs ->
    Forall (located data path) errs.
Proof.
  induction data as [| b | z | f | s | l IHl | d IHd] using value_induction;
    intros schema path errs H;
    apply _validate_schema_shape in H;
    destruct H as [sd [T [E [R [P [U [I [_ [-> Hrep]]]]]]]]];
    (destruct Hrep as [[e [_ [_ [-> [-> [-> [-> [-> ->]]]]]]]]
                      | [-> [_ [HE [HO HI]]]]];
     [ simpl; constructor; [apply located_here | constructor] | ]);
    (assert (HEl : forall v, enum_segment v (dict_get sd "enum" PNone) path E ->
                             Forall (located v path) E)
      by (intros v0 HE0; unfold enum_segment in HE0;
          destruct (is_None (dict_get sd "enum" PNone));
          [ subst E; constructor
          | destruct HE0 as [present [_ ->]]; destruct present;
            [ constructor
            | constructor; [unfold enum_message; apply located_here | constructor]]]));
    apply HEl in HE; simpl in HO, HI;
    try (destruct HO as [-> [-> ->]]; subst I; simpl;
         rewrite ?app_nil_r; exact HE).
  - (* a list: the items *)
    destruct HO as [-> [-> ->]]. simpl.
    apply Forall_app. split; [exact HE |].
    destruct (py_eq (dict_get sd "type" PNone) (PStr "array")
              && truthy (dict_get sd "items" PNone));
      [| subst I; constructor].
    destruct HI as [rs [Hrs ->]].
    apply (Forall_concat_Forall2 _ _ _ _ Hrs).
    intros [i v] r Hin Hr. simpl in Hr.
    apply enumerate_In in Hin. destruct Hin as [n [-> Hn]]. simpl in Hr.
    rewrite Forall_forall in IHl.
    apply (IHl v (nth_error_In _ _ Hn)) in Hr.
    eapply Forall_impl; [| exact Hr].
    intros e. now apply located_element.
  - (* a dict: required, properties, unexpected keys *)
    subst I. rewrite app_nil_r. simpl.
    apply Forall_app. split; [exact HE |].
    destruct (py_eq (dict_get sd "type" PNone) (PStr "object"));
      [| destruct HO as [-> [-> ->]]; constructor].
    destruct HO as [required [props [rs [ks [_ [_ [-> [Hrs [-> [-> _]]]]]]]]]].
    repeat (apply Forall_app; split).
    + unfold missing_errors, missing_message_of.
      induction (filter (fun key => negb (key_present d key)) required)
        as [| k ks' IHk]; simpl; constructor; [apply located_here | exact IHk].
    + apply (Forall_concat_Forall2 _ _ _ _ Hrs).
      intros [key sub] r _ [v [Hl Hr]]. simpl in Hl, Hr.
      rewrite Forall_forall in IHd.
      apply (IHd (key, v) (lookup_In _ _ _ Hl)) in Hr.
      eapply Forall_impl; [| exact Hr].
      intros e. now apply located_member.
    + unfold unexpected_errors.
      apply (Forall_map_located (PDict d) path
               (fun key => "unexpected key '" ++ key ++ "'")).
Qed.

(** C5. Every error names a location of the data, written from the root
    "$" with [.key] for each object member and [[index]] for each array
    element passed on the way, indices counted from 0; and validating
    [{"a": [1, "two", 3]}] against
    [{type: object, properties: {a: {type: array, items: {type: integer}}}}]
    gives exactly the one error
    [$.a[1]: Expected type 'integer' but received value 'two']. *)
Theorem error_paths :
  (forall (data schema : value) (errs : list string),
      _validate_schema data schema "$" = Ok errs ->
      Forall (located data "$") errs) /\
  _validate_schema nested_value nested_schema "$" =
  Ok ["$.a[1]: Expected type 'integer' but received value 'two'"].
Proof.
  split.
  - intros data schema errs. apply _validate_schema_located.
  - reflexivity.
Qed.

Lemma error_paths_witness :
  Forall (located nested_value "$")
    ["$.a[1]: Expected type 'integer' but received value 'two'"].
Proof.
  exact (proj1 error_paths nested_value nested_schema _ eq_refl).
Defined.

(* ====================================================================== *)
(** * Further properties of the facade *)
(* ====================================================================== *)

Import Cli.

(** The three shapes a result of [validate] takes. *)
Lemma validate_result_shape (dec : Decoders) (fs : FileSystem)
    (self : ConfigValidationSuite) (path : Path) (schema : value)
    (r : ValidationResult) :
  validate dec fs self path schema = Ok r ->
  (fs_exists fs path = Ok false /\ strict self = false /\
   r = mkValidationResult true [] [missing_message path]) \/
  r = mkValidationResult true [] [] \/
  (exists e es, r = mkValidationResult false (e :: es) []).
Proof.
  unfold validate, validate_run.
  destruct (fs_exists fs path) as [[|] | exc0]; cbn [bind negb]; [| | discriminate].
  - destruct (existsb (String.eqb (lower (suffix path))) SUPPORTED_FORMATS); cbn [negb].
    + destruct (_load_config dec fs path) as [data | exc].
      * intros H. bind_inv H. injection H as <-.
        destruct a as [| e es]; [right; left; reflexivity |].
        right; right. now exists e, es.
      * destruct (caught exc); [| discriminate].
        intros H. injection H as <-. right; right. eexists _, _. reflexivity.
    + intros H. injection H as <-. right; right. eexists _, _. reflexivity.
  - intros H. injection H as <-. destruct (strict self).
    + right; right. eexists _, _. reflexivity.
    + left. now repeat split.
Qed.

(** X1. An existing file whose suffix, in lower case, is none of [.json],
    [.toml], [.ini] gives one error naming the suffix as written and the
    sorted list of formats; the result is not valid, whatever [strict], the
    schema, the decoders and the content of the file are. *)
Theorem unsupported_format_result (dec : Decoders) (fs : FileSystem)
    (self : ConfigValidationSuite) (path : Path) (schema : value) :
  fs_exists fs path = Ok true ->
  ~ In (lower (suffix path)) SUPPORTED_FORMATS ->
  validate dec fs self path schema =
  Ok (mkValidationResult false [unsupported_message path] []).
Proof.
  intros He Hs. unfold validate, validate_run. rewrite He. cbn [bind negb].
  destruct (existsb (String.eqb (lower (suffix path))) SUPPORTED_FORMATS) eqn:Hx.
  - exfalso. apply Hs. apply existsb_exists in Hx. destruct Hx as [x [Hin Hx]].
    apply String.eqb_eq in Hx. now subst x.
  - reflexivity.
Qed.

Lemma unsupported_format_result_witness :
  validate failing_decoders (one_file_fs "notes.YAML" "a: 1") (mkSuite true)
    (mkPath "notes.YAML" ".YAML") PNone =
  Ok (mkValidationResult false
        ["Unsupported config format '.YAML'. Supported formats: .ini, .json, .toml."]
        []).
Proof.
  apply (unsupported_format_result failing_decoders
           (one_file_fs "notes.YAML" "a: 1") (mkSuite true)
           (mkPath "notes.YAML" ".YAML") PNone).
  - reflexivity.
  - simpl. intros H. repeat (destruct H as [H | H]; [discriminate H |]). exact H.
Defined.

(** X2. [strict] matters for a missing file only: on a file that exists,
    the strict and the lenient suite end the same way. *)
Theorem strict_only_for_missing_files (dec : Decoders) (fs : FileSystem)
    (path : Path) (schema : value) :
  fs_exists fs path = Ok true ->
  validate dec fs (mkSuite true) path schema =
  validate dec fs (mkSuite false) path schema.
Proof. intros He. unfold validate, validate_run. now rewrite He. Qed.

Lemma strict_only_for_missing_files_witness :
  validate sample_decoders crowded_fs (mkSuite true) (mkPath "app.json" ".json")
    (PDict [("type", PStr "object")]) =
  validate sample_decoders crowded_fs (mkSuite false) (mkPath "app.json" ".json")
    (PDict [("type", PStr "object")]).
Proof.
  apply (strict_only_for_missing_files sample_decoders crowded_fs). reflexivity.
Defined.

(** X3. Without a schema, or with a falsy one such as the empty dict, a
    file that exists, has a supported suffix and decodes is valid, with no
    error and no warning, whatever was decoded. *)
Theorem schemaless_validation (dec : Decoders) (fs : FileSystem)
    (self : ConfigValidationSuite) (path : Path) (schema data : value) :
  fs_exists fs path = Ok true ->
  In (lower (suffix path)) SUPPORTED_FORMATS ->
  _load_config dec fs path = Ok data ->
  truthy schema = false ->
  validate dec fs self path schema = Ok (mkValidationResult true [] []).
Proof.
  intros He Hs Hl Ht. unfold validate, validate_run. rewrite He. cbn [bind negb].
  assert (Hx : existsb (String.eqb (lower (suffix path))) SUPPORTED_FORMATS = true).
  { apply existsb_exists. exists (lower (suffix path)). split; [exact Hs |].
    apply String.eqb_refl. }
  rewrite Hx, Hl, Ht. reflexivity.
Qed.

Lemma schemaless_validation_witness :
  validate sample_decoders crowded_fs (mkSuite true) (mkPath "app.json" ".JSON")
    (PDict []) =
  Ok (mkValidationResult true [] []).
Proof.
  apply (schemaless_validation sample_decoders crowded_fs (mkSuite true)
           (mkPath "app.json" ".JSON") (PDict [])
           (PList [PInt 1; PBool true; PNone])).
  - reflexivity.
  - simpl. now left.
  - reflexivity.
  - reflexivity.
Defined.

(** X4. [validate] raises in three cases only: the test for the file's
    existence raised; or, on a file that exists with a supported suffix, the
    load raised something that is neither an [OSError] nor a [ValueError];
    or the load succeeded and the walk over a truthy schema raised.  The
    exception is passed on unchanged. *)
Theorem validate_raises_iff (dec : Decoders) (fs : FileSystem)
    (self : ConfigValidationSuite) (path : Path) (schema : value) (e : exn) :
  validate dec fs self path schema = Raise e <->
  fs_exists fs path = Raise e \/
  (fs_exists fs path = Ok true /\
   In (lower (suffix path)) SUPPORTED_FORMATS /\
   ((_load_config dec fs path = Raise e /\ caught e = false) \/
    (exists data, _load_config dec fs path = Ok data /\ truthy schema = true /\
                  _validate_schema data schema "$" = Raise e))).
Proof.
  unfold validate, validate_run. split.
  - destruct (fs_exists fs path) as [[|] | exc0]; cbn [bind negb];
      [| discriminate | intros [= ->]; now left].
    destruct (existsb (String.eqb (lower (suffix path))) SUPPORTED_FORMATS) eqn:Hx;
      cbn [negb]; [| discriminate].
    apply existsb_exists in Hx. destruct Hx as [x [Hin Hx]].
    apply String.eqb_eq in Hx. subst x.
    destruct (_load_config dec fs path) as [data | exc].
    + destruct (truthy schema); [| discriminate].
      destruct (_validate_schema data schema "$") as [errs | exc] eqn:Hv;
        [discriminate |].
      simpl. intros [= ->]. right. repeat split; auto.
      right. exists data. now repeat split.
    + destruct (caught exc) eqn:Hc; [discriminate |].
      intros [= ->]. right. repeat split; auto.
  - intros [He | [He [Hs Hcase]]]; rewrite He; cbn [bind negb]; [reflexivity |].
    assert (Hx : existsb (String.eqb (lower (suffix path))) SUPPORTED_FORMATS = true).
    { apply existsb_exists. exists (lower (suffix path)). split; [exact Hs |].
      apply String.eqb_refl. }
    rewrite Hx. cbn [negb].
    destruct Hcase as [[Hl Hc] | [data [Hl [Ht Hv]]]].
    + now rewrite Hl, Hc.
    + now rewrite Hl, Ht, Hv.
Qed.

(** Each of the three cases occurs: a name too long for the file system; an
    INI file without a section header; a TOML file whose integer is too long
    to be rendered in the message of its type mismatch. *)
Lemma validate_raises_iff_witness :
  validate failing_decoders long_name_fs (mkSuite false)
    (mkPath "conf/app.json" ".json") PNone =
  Raise (OSError "File name too long") /\
  validate failing_decoders (one_file_fs "settings.ini" headerless_ini)
    (mkSuite false) (mkPath "settings.ini" ".ini") PNone =
  Raise (ConfigParserError "File contains no section headers.") /\
  validate wide_decoders (one_file_fs "wide.toml" wide_toml) (mkSuite false)
    (mkPath "wide.toml" ".toml")
    (PDict [("type", PStr "object");
            ("properties", PDict [("n", PDict [("type", PStr "string")])])]) =
  Raise int_limit_error.
Proof.
  split; [| split].
  - apply (proj2 (validate_raises_iff failing_decoders long_name_fs (mkSuite false)
                    (mkPath "conf/app.json" ".json") PNone
                    (OSError "File name too long"))).
    left. reflexivity.
  - apply (proj2 (validate_raises_iff failing_decoders
                    (one_file_fs "settings.ini" headerless_ini) (mkSuite false)
                    (mkPath "settings.ini" ".ini") PNone
                    (ConfigParserError "File contains no section headers."))).
    right. split; [reflexivity |]. split; [simpl; tauto |].
    left. split; reflexivity.
  - apply (proj2 (validate_raises_iff wide_decoders
                    (one_file_fs "wide.toml" wide_toml) (mkSuite false)
                    (mkPath "wide.toml" ".toml")
                    (PDict [("type", PStr "object");
                            ("properties",
                             PDict [("n", PDict [("type", PStr "string")])])])
                    int_limit_error)).
    right. split; [vm_compute; reflexivity |]. split; [simpl; tauto |].
    right. exists (PDict [("n", PInt (16 ^ 3600))]).
    split; [vm_compute; reflexivity |]. split; [reflexivity |].
    vm_compute; reflexivity.
Defined.

(** X5. A result of [validate] never holds both errors and warnings: it
    holds at most one warning, and that only for a missing file under a
    lenient suite, next to an empty error list. *)
Theorem warnings_exclude_errors (dec : Decoders) (fs : FileSystem)
    (self : ConfigValidationSuite) (path : Path) (schema : value)
    (r : ValidationResult) :
  validate dec fs self path schema = Ok r ->
  warnings r = [] \/
  (errors r = [] /\ warnings r = [missing_message path] /\
   strict self = false /\ fs_exists fs path = Ok false).
Proof.
  intros H. apply validate_result_shape in H.
  destruct H as [[He [Hs ->]] | [-> | [e [es ->]]]]; simpl; auto.
Qed.

Lemma warnings_exclude_errors_witness :
  let r := mkValidationResult true [] ["Config file 'conf/app.json' does not exist."] in
  warnings r = [] \/
  (errors r = [] /\
   warnings r = [missing_message (mkPath "conf/app.json" ".json")] /\
   strict (mkSuite false) = false /\
   fs_exists empty_fs (mkPath "conf/app.json" ".json") = Ok false).
Proof.
  exact (warnings_exclude_errors failing_decoders empty_fs (mkSuite false)
           (mkPath "conf/app.json" ".json") (PDict [("type", PStr "object")])
           _ eq_refl).
Defined.

(** X6. The summary of a result of [validate] reads "Validation PASS",
    "Validation PASS | Warnings: 1" or "Validation FAIL | Errors: <n>" with
    n the number of errors, at least 1; it never shows both counts. *)
Theorem summary_of_validate (dec : Decoders) (fs : FileSystem)
    (self : ConfigValidationSuite) (path : Path) (schema : value)
    (r : ValidationResult) :
  validate dec fs self path schema = Ok r ->
  (summary r = "Validation PASS" /\ errors r = [] /\ warnings r = []) \/
  (summary r = "Validation PASS | Warnings: 1" /\ errors r = [] /\
   List.length (warnings r) = 1%nat) \/
  (summary r = "Validation FAIL | Errors: " ++ repr_int (len (errors r)) /\
   1 <= len (errors r) /\ warnings r = []).
Proof.
  intros H. apply validate_result_shape in H.
  destruct H as [[He [Hs ->]] | [-> | [e [es ->]]]].
  - right; left. now repeat split.
  - left. now repeat split.
  - right; right. split; [reflexivity |]. split; [| reflexivity].
    unfold len. cbn [errors List.length]. lia.
Qed.

Lemma summary_of_validate_witness :
  let r := mkValidationResult false ["Config file 'conf/app.json' does not exist."] [] in
  (summary r = "Validation PASS" /\ errors r = [] /\ warnings r = []) \/
  (summary r = "Validation PASS | Warnings: 1" /\ errors r = [] /\
   List.length (warnings r) = 1%nat) \/
  (summary r = "Validation FAIL | Errors: " ++ repr_int (len (errors r)) /\
   1 <= len (errors r) /\ warnings r = []).
Proof.
  exact (summary_of_validate failing_decoders empty_fs (mkSuite true)
           (mkPath "conf/app.json" ".json") PNone _ eq_refl).
Defined.

(** X7. On a result of [validate], [raise_for_errors] returns exactly when
    the result is valid; otherwise it raises [ValidationError] with the
    errors joined by "; ". *)
Theorem raise_for_errors_of_validate (dec : Decoders) (fs : FileSystem)
    (self : ConfigValidationSuite) (path : Path) (schema : value)
    (r : ValidationResult) :
  validate dec fs self path schema = Ok r ->
  raise_for_errors r =
  if valid r then Ok tt
  else Raise (ValidationError (String.concat "; " (errors r))).
Proof.
  intros H. apply validate_valid_flag in H. unfold raise_for_errors.
  rewrite H. now destruct (list_truthy (errors r)).
Qed.

Lemma raise_for_errors_of_validate_witness :
  raise_for_errors
    (mkValidationResult false ["Config file 'conf/app.json' does not exist."] []) =
  Raise (ValidationError "Config file 'conf/app.json' does not exist.").
Proof.
  exact (raise_for_errors_of_validate failing_decoders empty_fs (mkSuite true)
           (mkPath "conf/app.json" ".json") PNone _ eq_refl).
Defined.

(* ====================================================================== *)
(** * Further properties of the validator *)
(* ====================================================================== *)

(** The type check passes exactly as the table of type names says. *)
Lemma _check_type_passes_iff (v : value) (t : string) :
  _check_type v (PStr t) = Ok None <-> has_type t v.
Proof.
  split.
  - intros H. unfold _check_type in H. rewrite checkers_get_str in H.
    cbn [bind] in H.
    destruct (assoc t checkers) as [check |] eqn:Hk; [| discriminate H].
    pose proof (assoc_recognized _ _ _ Hk) as Hin. simpl in Hin.
    repeat (destruct Hin as [<- | Hin];
            [ simpl in Hk; injection Hk as <-;
              destruct v; simpl in H; try discriminate H;
              try (revert H; destruct (py_repr _); discriminate);
              simpl; auto |]).
    destruct Hin.
  - destruct v; simpl; intros Ht; try (subst t; reflexivity).
    destruct Ht as [-> | ->]; reflexivity.
Qed.

Lemma falsy_is_not_a_type_name (ty : value) (name : string) :
  truthy ty = false -> name <> EmptyString -> py_eq ty (PStr name) = false.
Proof.
  intros Ht Hn. destruct ty; try reflexivity. simpl in *.
  destruct s; [| discriminate Ht]. destruct name; [now elim Hn | reflexivity].
Qed.

Lemma bind_Ok_r {A : Type} (c : res A) : bind c (fun a => Ok a) = c.
Proof. now destruct c. Qed.

(** X8. A node without a (truthy) [type] and without [enum] accepts every
    value: [required], [properties], [additionalProperties] and [items] are
    looked at only under [type: object] and [type: array], and are never
    checked without them. *)
Theorem untyped_node_accepts (data : value) (sd : dict) (path : string) :
  truthy (dict_get sd "type" PNone) = false ->
  dict_get sd "enum" PNone = PNone ->
  _validate_schema data (PDict sd) path = Ok [].
Proof.
  intros Ht He. rewrite _validate_schema_eq. cbn [get bind]. cbv zeta.
  rewrite Ht, He. cbn [bind type_error_truthy is_None negb].
  rewrite (falsy_is_not_a_type_name _ "object" Ht) by discriminate.
  rewrite (falsy_is_not_a_type_name _ "array" Ht) by discriminate.
  reflexivity.
Qed.

Lemma untyped_node_accepts_witness :
  _validate_schema (PInt 5)
    (PDict [("required", PList [PStr "name"]);
            ("properties", PDict [("name", PDict [("type", PStr "string")])]);
            ("additionalProperties", PBool false);
            ("items", PDict [("type", PStr "string")])]) "$" =
  Ok [].
Proof.
  apply (untyped_node_accepts (PInt 5)
           [("required", PList [PStr "name"]);
            ("properties", PDict [("name", PDict [("type", PStr "string")])]);
            ("additionalProperties", PBool false);
            ("items", PDict [("type", PStr "string")])] "$");
    reflexivity.
Defined.

(** ** Schemas of the expected shape *)

Lemma wf_schema_entry (sd : dict) (k : string) (v : value) :
  wf_schema (PDict sd) = true -> lookup k sd = Some v -> entry_ok k v = true.
Proof.
  intros Hwf Hl. apply lookup_In in Hl.
  change (forallb (fun kv => entry_ok (fst kv) (snd kv)) sd = true) in Hwf.
  rewrite forallb_forall in Hwf. exact (Hwf (k, v) Hl).
Qed.

Lemma wf_schema_type (sd : dict) :
  wf_schema (PDict sd) = true ->
  dict_get sd "type" PNone = PNone \/ exists t, dict_get sd "type" PNone = PStr t.
Proof.
  intros Hwf. unfold dict_get.
  destruct (lookup "type" sd) as [v |] eqn:Hl; [| now left].
  apply (wf_schema_entry sd _ _ Hwf) in Hl. simpl in Hl.
  destruct v; try discriminate Hl. right. now exists s.
Qed.

Lemma wf_schema_enum (sd : dict) :
  wf_schema (PDict sd) = true ->
  dict_get sd "enum" PNone = PNone \/ exists l, dict_get sd "enum" PNone = PList l.
Proof.
  intros Hwf. unfold dict_get.
  destruct (lookup "enum" sd) as [v |] eqn:Hl; [| now left].
  apply (wf_schema_entry sd _ _ Hwf) in Hl. simpl in Hl.
  destruct v; try discriminate Hl; [now left | right; now exists l].
Qed.

Lemma wf_schema_required (sd : dict) :
  wf_schema (PDict sd) = true ->
  exists l, dict_get sd "required" (PList []) = PList l /\ forallb hashable l = true.
Proof.
  intros Hwf. unfold dict_get.
  destruct (lookup "required" sd) as [v |] eqn:Hl; [| now exists []].
  apply (wf_schema_entry sd _ _ Hwf) in Hl. simpl in Hl.
  destruct v; try discriminate Hl. now exists l.
Qed.

Lemma wf_schema_properties (sd : dict) :
  wf_schema (PDict sd) = true ->
  exists props, dict_get sd "properties" (PDict []) = PDict props /\
                forall key sub, In (key, sub) props -> wf_schema sub = true.
Proof.
  intros Hwf. unfold dict_get.
  destruct (lookup "properties" sd) as [v |] eqn:Hl.
  - apply (wf_schema_entry sd _ _ Hwf) in Hl.
    change (match v with
            | PDict props => forallb (fun p => wf_schema (snd p)) props
            | _ => false
            end = true) in Hl.
    destruct v; try discriminate Hl. exists d. split; [reflexivity |].
    rewrite forallb_forall in Hl. intros key sub Hin. exact (Hl (key, sub) Hin).
  - exists []. split; [reflexivity | intros key sub []].
Qed.

Lemma wf_schema_items (sd : dict) :
  wf_schema (PDict sd) = true ->
  truthy (dict_get sd "items" PNone) = true ->
  wf_schema (dict_get sd "items" PNone) = true.
Proof.
  intros Hwf. unfold dict_get.
  destruct (lookup "items" sd) as [v |] eqn:Hl; [| discriminate].
  apply (wf_schema_entry sd _ _ Hwf) in Hl.
  change (negb (truthy v) || wf_schema v = true) in Hl.
  intros Ht. rewrite Ht in Hl. exact Hl.
Qed.

(** X9. A schema that gives a type and nothing else accepts a value exactly
    as the table of type names says: "null" for [None], "boolean" for a
    [bool], "integer" and "number" for an [int], "number" alone for a
    [float] (even a whole one), "string" for a [str], "array" for a list,
    "object" for a dict.  The empty name accepts everything; any other name
    accepts nothing. *)
Theorem type_table (v : value) (t path : string) :
  _validate_schema v (PDict [("type", PStr t)]) path = Ok [] <->
  t = EmptyString \/ has_type t v.
Proof.
  rewrite _validate_schema_eq. cbn [get bind dict_get lookup String.eqb]. cbv zeta.
  change (dict_get [("type", PStr t)] "type" PNone) with (PStr t).
  change (dict_get [("type", PStr t)] "enum" PNone) with PNone.
  destruct t as [| c t']; [split; [now left | reflexivity] |].
  cbn [truthy str_truthy].
  destruct (_check_type v (PStr (String c t'))) as [[e |] | exc] eqn:Hc.
  - pose proof (_check_type_message_truthy _ _ _ Hc) as He.
    cbn [bind type_error_truthy]. rewrite He. split; [discriminate |].
    intros [Hcontra | Ht]; [discriminate Hcontra |].
    apply _check_type_passes_iff in Ht. congruence.
  - apply _check_type_passes_iff in Hc. cbn [bind type_error_truthy is_None negb].
    split; [intros _; now right | intros _].
    destruct v; simpl in Hc;
      try (destruct Hc as [Hc | Hc]); injection Hc as -> ->; reflexivity.
  - cbn [bind]. split; [discriminate |].
    intros [Hcontra | Ht]; [discriminate Hcontra |].
    apply _check_type_passes_iff in Ht. congruence.
Qed.

(** ** A clean run and conformance *)

Lemma filter_nil_iff {A : Type} (f : A -> bool) (l : list A) :
  filter f l = [] <-> forall x, In x l -> f x = false.
Proof.
  induction l as [| a l IH]; simpl.
  - split; [intros _ x [] | reflexivity].
  - destruct (f a) eqn:Hfa.
    + split; [discriminate |]. intros H. rewrite (H a (or_introl eq_refl)) in Hfa.
      discriminate Hfa.
    + rewrite IH. split.
      * intros H x [<- | Hin]; [exact Hfa | now apply H].
      * intros H x Hin. apply H. now right.
Qed.

Lemma concat_nil_iff {A : Type} (rs : list (list A)) :
  List.concat rs = [] <-> forall r, In r rs -> r = [].
Proof.
  induction rs as [| r rs IH]; simpl.
  - split; [intros _ r [] | reflexivity].
  - split.
    + intros H. apply app_eq_nil in H. destruct H as [Hr Hrs].
      intros x [<- | Hin]; [exact Hr | now apply IH].
    + intros H. rewrite (H r (or_introl eq_refl)). simpl.
      apply IH. intros x Hin. apply H. now right.
Qed.

Lemma Forall2_In_l {A B : Type} (R : A -> B -> Prop) (xs : list A) (ys : list B)
    (x : A) :
  Forall2 R xs ys -> In x xs -> exists y, In y ys /\ R x y.
Proof.
  induction 1 as [| a b xs ys Hab _ IH]; simpl; [intros [] |].
  intros [<- | Hin].
  - exists b. split; [now left | exact Hab].
  - destruct (IH Hin) as [y [Hy Hxy]]. exists y. split; [now right | exact Hxy].
Qed.

Lemma Forall2_In_r {A B : Type} (R : A -> B -> Prop) (xs : list A) (ys : list B)
    (y : B) :
  Forall2 R xs ys -> In y ys -> exists x, In x xs /\ R x y.
Proof.
  induction 1 as [| a b xs ys Hab _ IH]; simpl; [intros [] |].
  intros [<- | Hin].
  - exists a. split; [now left | exact Hab].
  - destruct (IH Hin) as [x [Hx Hxy]]. exists x. split; [now right | exact Hxy].
Qed.

Lemma In_enumerate (l : list value) (start : Z) (v : value) :
  In v l -> exists i, In (i, v) (enumerate start l).
Proof.
  revert start. induction l as [| x r IH]; simpl; intros start; [intros [] |].
  intros [<- | Hin].
  - exists start. now left.
  - destruct (IH (start + 1) Hin) as [i Hi]. exists i. now right.
Qed.

Lemma enumerate_In_value (l : list value) (start i : Z) (v : value) :
  In (i, v) (enumerate start l) -> In v l.
Proof.
  intros H. apply enumerate_In in H. destruct H as [n [_ Hn]].
  exact (nth_error_In _ _ Hn).
Qed.

Lemma py_eq_str_inv (v : value) (s : string) :
  py_eq v (PStr s) = true -> v = PStr s.
Proof.
  destruct v; simpl; try discriminate. intros H.
  apply String.eqb_eq in H. now subst.
Qed.

Lemma is_False_inv (v : value) : is_False v = true -> v = PBool false.
Proof. destruct v as [| [] | | | | |]; simpl; (discriminate || reflexivity). Qed.

Lemma sorted_nil_inv (l : list string) : sorted l = [] -> l = [].
Proof.
  intros H. pose proof (sorted_perm l) as Hp. rewrite H in Hp.
  now apply Permutation_nil.
Qed.

Lemma app6_nil {A : Type} (T E R P U I : list A) :
  [] = (T ++ E ++ R ++ P ++ U ++ I)%list ->
  T = [] /\ E = [] /\ R = [] /\ P = [] /\ U = [] /\ I = [].
Proof.
  intros H. symmetry in H.
  apply app_eq_nil in H. destruct H as [HT H].
  apply app_eq_nil in H. destruct H as [HE H].
  apply app_eq_nil in H. destruct H as [HR H].
  apply app_eq_nil in H. destruct H as [HP H].
  apply app_eq_nil in H. destruct H as [HU HI].
  now repeat split.
Qed.

(** A run without errors means the value conforms. *)
Lemma clean_run_conforms (data : value) :
  forall (schema : value) (path : string),
    _validate_schema data schema path = Ok [] -> conforms data schema.
Proof.
  induction data as [| b | z | f | s | l IHl | d IHd] using value_induction;
    intros schema path H;
    apply _validate_schema_shape in H;
    destruct H as [sd [T [E [R [P [U [I [-> [Heq Hparts]]]]]]]]];
    apply app6_nil in Heq;
    destruct Heq as [-> [-> [-> [-> [-> ->]]]]];
    (destruct Hparts as [[e [_ [_ [HT _]]]] | [_ [Hty [HE [HO HI]]]]];
     [discriminate HT |]);
    constructor.
  all: try (intros t Ht Hne; rewrite Ht in Hty;
            destruct Hty as [Hf | Hc];
            [ destruct t; [now elim Hne | discriminate Hf]
            | now apply _check_type_passes_iff ]).
  all: try (intros en Hen; rewrite Hen in HE; unfold enum_segment in HE;
            cbn [is_None py_in] in HE; destruct HE as [present [Hin HEq]];
            injection Hin as <-;
            match type of HEq with
            | context [existsb ?g ?l] => destruct (existsb g l) eqn:Hx
            end; [| discriminate HEq];
            apply existsb_exists in Hx; exact Hx).
  all: try (intros d0 Hd0; discriminate Hd0).
  all: try (intros l0 Hl0; discriminate Hl0).
  - (* the items of a list *)
    intros l0 Hl0 Harr Hit. injection Hl0 as <-.
    cbn [item_segment] in HI. rewrite Harr, Hit in HI. simpl in HI.
    destruct HI as [rs [Hrs Hnil]]. symmetry in Hnil.
    rewrite concat_nil_iff in Hnil.
    rewrite Forall_forall. intros v Hin.
    destruct (In_enumerate l 0 v Hin) as [i Hi].
    destruct (Forall2_In_l _ _ _ _ Hrs Hi) as [r [Hr Hrun]].
    rewrite (Hnil r Hr) in Hrun. simpl in Hrun.
    rewrite Forall_forall in IHl. exact (IHl v Hin _ _ Hrun).
  - (* the parts of an object *)
    intros d0 Hd0 Hobj. injection Hd0 as <-.
    cbn [object_segments] in HO. rewrite Hobj in HO. simpl py_eq in HO. cbv iota in HO.
    destruct HO as [required [props [rs [ks [Hreq [Hprops [HR [Hrs [HP [HU Hks]]]]]]]]]].
    split.
    + intros req Hr key Hin. rewrite Hr in Hreq. injection Hreq as <-.
      unfold missing_errors in HR. symmetry in HR. apply map_eq_nil in HR.
      rewrite filter_nil_iff in HR. specialize (HR key Hin).
      now destruct (key_present d key).
    + intros props' Hp. rewrite Hprops in Hp. injection Hp as <-. split.
      * intros key sub v Hin Hl.
        assert (Hf : In (key, sub) (filter (fun kv => dict_contains d (fst kv)) props)).
        { apply filter_In. split; [exact Hin |]. unfold dict_contains. simpl.
          now rewrite Hl. }
        destruct (Forall2_In_l _ _ _ _ Hrs Hf) as [r [Hr [v' [Hl' Hrun]]]].
        simpl in Hl', Hrun. rewrite Hl in Hl'. injection Hl' as <-.
        symmetry in HP. rewrite concat_nil_iff in HP. rewrite (HP r Hr) in Hrun.
        rewrite Forall_forall in IHd.
        exact (IHd (key, v) (lookup_In _ _ _ Hl) _ _ Hrun).
      * intros Hadd k Hk. rewrite Hadd in Hks. cbn [is_False] in Hks.
        unfold unexpected_errors in HU. symmetry in HU. apply map_eq_nil in HU.
        subst ks. symmetry in Hks. apply sorted_nil_inv in Hks.
        rewrite filter_nil_iff in Hks. specialize (Hks k Hk).
        apply negb_false_iff in Hks. apply existsb_exists in Hks.
        destruct Hks as [x [Hx Hkx]]. apply String.eqb_eq in Hkx. now subst x.
Qed.

(** A value that conforms to a schema of the expected shape gets no error. *)
Lemma conforming_run_clean (data : value) :
  forall (schema : value) (path : string) (errs : list string),
    wf_schema schema = true -> conforms data schema ->
    _validate_schema data schema path = Ok errs -> errs = [].
Proof.
  induction data as [| b | z | f | s | l IHl | d IHd] using value_induction;
    intros schema path errs Hwf Hc H;
    apply _validate_schema_shape in H;
    destruct H as [sd [T [E [R [P [U [I [-> [-> Hparts]]]]]]]]];
    inversion Hc as [data0 sd0 Ctype Cenum Cobj Carr Hd0 Hs0]; subst data0 sd0;
    (destruct Hparts as [[e [Htt [Hchk _]]] | [-> [_ [HE [HO HI]]]]];
     [ exfalso;
       destruct (wf_schema_type sd Hwf) as [Hty | [t Hty]]; rewrite Hty in Htt, Hchk;
       [ discriminate Htt |];
       assert (Hne : t <> EmptyString) by (intros ->; discriminate Htt);
       apply (Ctype t Hty) in Hne; apply _check_type_passes_iff in Hne;
       congruence
     | ]);
    (assert (HEn : E = [])
      by (unfold enum_segment in HE;
          destruct (wf_schema_enum sd Hwf) as [Hen | [en Hen]]; rewrite Hen in HE;
          cbn [is_None py_in] in HE; [exact HE |];
          destruct HE as [present [Hin ->]]; injection Hin as <-;
          destruct (Cenum en Hen) as [x Hx];
          now rewrite (proj2 (existsb_exists _ _) (ex_intro _ x Hx))));
    subst E; cbn [object_segments item_segment] in HO, HI;
    try (destruct HO as [-> [-> ->]]; subst I; reflexivity).
  - (* a list *)
    destruct HO as [-> [-> ->]]. simpl.
    destruct (py_eq (dict_get sd "type" PNone) (PStr "array")) eqn:Harr;
      [| simpl in HI; exact HI].
    destruct (truthy (dict_get sd "items" PNone)) eqn:Hit;
      [| simpl in HI; exact HI].
    simpl in HI. destruct HI as [rs [Hrs ->]].
    apply py_eq_str_inv in Harr.
    pose proof (Carr l eq_refl Harr eq_refl) as Hall. rewrite Forall_forall in Hall.
    apply concat_nil_iff. intros r Hr.
    destruct (Forall2_In_r _ _ _ _ Hrs Hr) as [[i v] [Hiv Hrun]]. simpl in Hrun.
    apply enumerate_In_value in Hiv.
    rewrite Forall_forall in IHl.
    exact (IHl v Hiv _ _ _ (wf_schema_items sd Hwf Hit) (Hall v Hiv) Hrun).
  - (* a dict *)
    subst I. rewrite !app_nil_r. simpl.
    destruct (py_eq (dict_get sd "type" PNone) (PStr "object")) eqn:Hobj;
      [| now destruct HO as [-> [-> ->]]].
    apply py_eq_str_inv in Hobj.
    destruct HO as [required [props [rs [ks [Hreq [Hprops [-> [Hrs [-> [-> Hks]]]]]]]]]].
    destruct (Cobj d eq_refl Hobj) as [Creq Cprops].
    destruct (Cprops props Hprops) as [Csub Cadd].
    destruct (wf_schema_required sd Hwf) as [req [Hr _]].
    destruct (wf_schema_properties sd Hwf) as [props' [Hp' Hwfp]].
    rewrite Hprops in Hp'. injection Hp' as <-.
    rewrite Hr in Hreq. injection Hreq as <-.
    assert (HR : missing_errors d path req = []).
    { unfold missing_errors.
      replace (filter (fun key => negb (key_present d key)) req) with (@nil value);
        [reflexivity |].
      symmetry. apply filter_nil_iff. intros key Hin.
      now rewrite (Creq req Hr key Hin). }
    assert (HP : List.concat rs = []).
    { apply concat_nil_iff. intros r Hin.
      destruct (Forall2_In_r _ _ _ _ Hrs Hin) as [[key sub] [Hks' [v [Hl Hrun]]]].
      simpl in Hl, Hrun. apply filter_In in Hks'. destruct Hks' as [Hin' _].
      rewrite Forall_forall in IHd.
      exact (IHd (key, v) (lookup_In _ _ _ Hl) _ _ _
               (Hwfp key sub Hin') (Csub key sub v Hin' Hl) Hrun). }
    assert (HU : ks = []).
    { subst ks.
      destruct (is_False (dict_get sd "additionalProperties" (PBool true))) eqn:Hf;
        [| reflexivity].
      apply is_False_inv in Hf.
      replace (filter (fun k => negb (existsb (String.eqb k) (keys props))) (keys d))
        with (@nil string); [reflexivity |].
      symmetry. apply filter_nil_iff. intros k Hk.
      apply negb_false_iff. apply existsb_exists. exists k.
      split; [exact (Cadd Hf k Hk) | apply String.eqb_refl]. }
    rewrite HR, HP, HU. reflexivity.
Qed.

(** X10. On a schema of the expected shape and a value that holds no NaN,
    a walk that returns gives no error exactly when the value conforms to
    the schema: the type holds, the value equals a member of [enum], an
    object has its required keys, its present properties conform and (with
    [additionalProperties: false]) it has no other key, and every item of an
    array conforms.  (Membership in [enum] is modelled by [==]; for a value
    without NaN that is what [in] decides.) *)
Theorem validator_decides_conformance (data schema : value) (path : string)
    (errs : list string) :
  wf_schema schema = true ->
  nan_free data = true ->
  _validate_schema data schema path = Ok errs ->
  (errs = [] <-> conforms data schema).
Proof.
  intros Hwf _ Hrun. split.
  - intros ->. exact (clean_run_conforms data schema path Hrun).
  - intros Hc. exact (conforming_run_clean data schema path errs Hwf Hc Hrun).
Qed.

Lemma validator_decides_conformance_witness :
  (sample_errors = [] <-> conforms sample_data sample_schema) /\
  (@nil string = [] <->
   conforms (PDict [("a", PList [PInt 1; PInt 2])]) nested_schema).
Proof.
  split.
  - apply (validator_decides_conformance sample_data sample_schema "$");
      reflexivity.
  - apply (validator_decides_conformance
             (PDict [("a", PList [PInt 1; PInt 2])]) nested_schema "$");
      reflexivity.
Defined.

(** ** The errors of a loaded file *)

(** X12. When the file loads, every error of the result names a location
    of the decoded data, written from the root "$", and the result holds no
    warning. *)
Theorem loaded_file_errors_are_located (dec : Decoders) (fs : FileSystem)
    (self : ConfigValidationSuite) (path : Path) (schema data : value)
    (r : ValidationResult) :
  fs_exists fs path = Ok true ->
  In (lower (suffix path)) SUPPORTED_FORMATS ->
  _load_config dec fs path = Ok data ->
  validate dec fs self path schema = Ok r ->
  Forall (located data "$") (errors r) /\ warnings r = [].
Proof.
  intros He Hs Hl. unfold validate, validate_run. rewrite He. cbn [bind negb].
  assert (Hx : existsb (String.eqb (lower (suffix path))) SUPPORTED_FORMATS = true).
  { apply existsb_exists. exists (lower (suffix path)). split; [exact Hs |].
    apply String.eqb_refl. }
  rewrite Hx, Hl. cbn [negb]. intros H. bind_inv H. injection H as <-.
  cbn [errors warnings]. split; [| reflexivity].
  destruct (truthy schema).
  - bind_inv Ha. injection Ha as <-.
    exact (_validate_schema_located data schema "$" a0 Ha0).
  - injection Ha as <-. constructor.
Qed.

Lemma loaded_file_errors_are_located_witness :
  Forall (located (PList [PInt 1; PBool true; PNone]) "$")
    ["$[1]: Expected type 'integer' but received value True";
     "$[2]: Expected type 'integer' but received value None"] /\
  @nil string = [].
Proof.
  exact (loaded_file_errors_are_located careful_decoders locked_fs (mkSuite true)
           (mkPath "app.json" ".json")
           (PDict [("type", PStr "array"); ("items", PDict [("type", PStr "integer")])])
           (PList [PInt 1; PBool true; PNone])
           (mkValidationResult false
              ["$[1]: Expected type 'integer' but received value True";
               "$[2]: Expected type 'integer' but received value None"] [])
           eq_refl (or_introl eq_refl) eq_refl eq_refl).
Defined.

(** ** The path argument *)

Lemma map_ok_bind {A B C : Type} (f : B -> C) (c : res A) (k : A -> res B) :
  map_ok f (bind c k) = bind c (fun a => map_ok f (k a)).
Proof. now destruct c. Qed.

Lemma required_loop_prefix (d : dict) (p q : string) (required : list value)
    (errs0 : list string) :
  required_loop d (p ++ q) required (map (String.append p) errs0) =
  map_ok (map (String.append p)) (required_loop d q required errs0).
Proof.
  revert errs0. induction required as [| key rest IH]; intros errs0;
    [reflexivity |].
  cbn [required_loop].
  destruct (py_in key (PDict d)) as [present | e]; [| reflexivity].
  cbn [bind].
  destruct (negb present); [| cbn [bind]; apply IH].
  destruct (py_str key) as [shown | e]; [| reflexivity].
  cbn [bind]. rewrite <- IH. f_equal.
  unfold append. rewrite map_app. cbn [map List.app]. now rewrite append_assoc.
Qed.

Section PrefixLoops.
Variable recurse : value -> value -> string -> res (list string).

Lemma properties_loop_prefix (d : dict) (p q : string) (props : dict)
    (errs0 : list string) :
  (forall key v, In (key, v) d -> forall sub p' q',
       recurse v sub (p' ++ q') =
       map_ok (map (String.append p')) (recurse v sub q')) ->
  properties_loop recurse d (p ++ q) props (map (String.append p) errs0) =
  map_ok (map (String.append p)) (properties_loop recurse d q props errs0).
Proof.
  intros Hrec. revert errs0.
  induction props as [| [key sub] rest IH]; intros errs0; [reflexivity |].
  cbn [properties_loop]. rewrite !on_item_lookup.
  destruct (lookup key d) as [v |] eqn:Hl.
  - rewrite append_assoc.
    rewrite (Hrec key v (lookup_In _ _ _ Hl) sub p (q ++ "." ++ key)).
    destruct (recurse v sub (q ++ "." ++ key)) as [r | e]; [| reflexivity].
    cbn [map_ok bind]. rewrite <- IH. f_equal.
    unfold extend. now rewrite map_app.
  - cbn [bind]. rewrite <- IH. f_equal.
    unfold extend. now rewrite map_app.
Qed.

Lemma items_loop_prefix (item_schema : value) (p q : string) (l : list value)
    (start : Z) (errs0 : list string) :
  (forall v, In v l -> forall sub p' q',
       recurse v sub (p' ++ q') =
       map_ok (map (String.append p')) (recurse v sub q')) ->
  items_loop recurse item_schema (p ++ q) l start (map (String.append p) errs0) =
  map_ok (map (String.append p)) (items_loop recurse item_schema q l start errs0).
Proof.
  revert start errs0.
  induction l as [| v rest IH]; intros start errs0 Hrec; [reflexivity |].
  cbn [items_loop]. rewrite append_assoc.
  rewrite (Hrec v (or_introl eq_refl) item_schema p (q ++ "[" ++ repr_int start ++ "]")).
  destruct (recurse v item_schema (q ++ "[" ++ repr_int start ++ "]")) as [r | e];
    [| reflexivity].
  cbn [map_ok bind].
  rewrite <- IH by (intros x Hin; apply Hrec; now right). f_equal.
  unfold extend. now rewrite map_app.
Qed.

Lemma validate_object_prefix (d : dict) (schema : value) (p q : string) :
  (forall key v, In (key, v) d -> forall sub p' q',
       recurse v sub (p' ++ q') =
       map_ok (map (String.append p')) (recurse v sub q')) ->
  validate_object_with recurse d schema (p ++ q) =
  map_ok (map (String.append p)) (validate_object_with recurse d schema q).
Proof.
  intros Hrec. unfold validate_object_with.
  destruct (get schema "required" (PList [])) as [required | e]; [| reflexivity].
  cbn [bind].
  destruct (iter required) as [required_keys | e]; [| reflexivity].
  cbn [bind].
  change (@nil string) with (map (String.append p) []) at 1.
  rewrite required_loop_prefix.
  destruct (required_loop d q required_keys []) as [errs1 | e]; [| reflexivity].
  cbn [map_ok bind].
  destruct (get schema "properties" (PDict [])) as [properties | e]; [| reflexivity].
  cbn [bind].
  destruct (items properties) as [property_items | e]; [| reflexivity].
  cbn [bind].
  rewrite (properties_loop_prefix d p q property_items errs1 Hrec).
  destruct (properties_loop recurse d q property_items errs1) as [errs2 | e];
    [| reflexivity].
  cbn [map_ok bind].
  destruct (get schema "additionalProperties" (PBool true)) as [additional | e];
    [| reflexivity].
  cbn [bind].
  destruct (is_False additional); [| reflexivity].
  cbn [map_ok]. f_equal.
  rewrite (fold_append (fun key => (p ++ q) ++ ": unexpected key '" ++ key ++ "'")).
  rewrite (fold_append (fun key => q ++ ": unexpected key '" ++ key ++ "'")).
  rewrite map_app, map_map. f_equal.
  apply map_ext. intros key. now rewrite append_assoc.
Qed.
End PrefixLoops.

Lemma enum_step_prefix (data enum_values : value) (p q : string) :
  (if negb (is_None enum_values)
   then present <- py_in data enum_values ;;
        if negb present
        then shown <- py_repr data ;;
             allowed <- py_repr enum_values ;;
             Ok (append []
                   ((p ++ q) ++ ": value " ++ shown
                      ++ " is not in allowed set " ++ allowed))
        else Ok []
   else Ok [])%py =
  map_ok (map (String.append p))
    (if negb (is_None enum_values)
     then present <- py_in data enum_values ;;
          if negb present
          then shown <- py_repr data ;;
               allowed <- py_repr enum_values ;;
               Ok (append []
                     (q ++ ": value " ++ shown
                        ++ " is not in allowed set " ++ allowed))
          else Ok []
     else Ok [])%py.
Proof.
  destruct (negb (is_None enum_values)); [| reflexivity].
  destruct (py_in data enum_values) as [present | e]; [| reflexivity].
  cbn [bind]. destruct (negb present); [| reflexivity].
  destruct (py_repr data) as [shown | e]; [| reflexivity].
  destruct (py_repr enum_values) as [allowed | e]; [| reflexivity].
  cbn [bind map_ok]. unfold append. cbn [map List.app].
  now rewrite append_assoc.
Qed.

Lemma _validate_schema_prefix (data : value) :
  forall (schema : value) (p q : string),
    _validate_schema data schema (p ++ q) =
    map_ok (map (String.append p)) (_validate_schema data schema q).
Proof.
  induction data as [| b | z | f | s | l IHl | d IHd] using value_induction;
    intros schema p q;
    rewrite (_validate_schema_eq _ schema (p ++ q)), (_validate_schema_eq _ schema q);
    cbv zeta;
    (destruct (get schema "type" PNone) as [schema_type | e]; [| reflexivity]);
    cbn [bind];
    (destruct (if truthy schema_type then _check_type _ schema_type else Ok None)
       as [type_error | e]; [| reflexivity]);
    cbn [bind];
    (destruct (type_error_truthy type_error);
     [ cbn [map_ok]; unfold append; simpl; now rewrite append_assoc |]);
    (destruct (get schema "enum" PNone) as [enum_values | e]; [| reflexivity]);
    cbn [bind];
    rewrite (enum_step_prefix _ enum_values p q);
    (destruct (if negb (is_None enum_values) then _ else _) as [errs0 | e];
     [| reflexivity]);
    cbn [map_ok bind];
    cbn [isinstance_Mapping isinstance_Sequence isinstance_str_bytes negb];
    rewrite ?andb_false_r, ?andb_true_r; cbn [andb];
    try reflexivity;
    try (destruct (py_eq schema_type (PStr "array")); reflexivity).
  - destruct (py_eq schema_type (PStr "array")); [| reflexivity].
    destruct (get schema "items" PNone) as [item_schema | e]; [| reflexivity].
    cbn [bind]. destruct (truthy item_schema); [| reflexivity].
    apply (items_loop_prefix _validate_schema item_schema p q l 0 errs0).
    intros v Hin sub p' q'. rewrite Forall_forall in IHl. apply (IHl v Hin).
  - destruct (py_eq schema_type (PStr "object")); [| reflexivity].
    unfold _validate_object.
    rewrite (validate_object_prefix _validate_schema d schema p q)
      by (intros key v Hin sub p' q'; rewrite Forall_forall in IHd;
          apply (IHd (key, v) Hin)).
    destruct (validate_object_with _validate_schema d schema q) as [errs | e];
      [| reflexivity].
    cbn [map_ok bind]. unfold extend. now rewrite map_app.
Qed.

(** X13. The path argument is a prefix and nothing else: validating at
    [p ++ q] gives the errors of validating at [q], each with [p] put in
    front, and raises exactly when that does.  What is found never depends
    on where the node sits. *)
Theorem path_is_a_prefix (data schema : value) (p : string) :
  _validate_schema data schema p =
  map_ok (map (String.append p)) (_validate_schema data schema EmptyString).
Proof.
  rewrite <- (_validate_schema_prefix data schema p EmptyString).
  now rewrite append_nil_r.
Qed.

(* ====================================================================== *)
(** * Properties of the command line *)
(* ====================================================================== *)





(** X15. A schema file that cannot be opened or decoded ends [main] with
    that exception, whatever the config file is: unlike a failure on the
    config file, it is not caught and not turned into an error line. *)
Theorem schema_failure_aborts_main (dec : Decoders) (fs : FileSystem)
    (args : Namespace) (schema_path : Path) (e : exn) :
  arg_schema args = Some schema_path ->
  fs_open fs schema_path = Raise e \/
  (exists text, fs_open fs schema_path = Ok text /\ json_load dec text = Raise e) ->
  main dec fs args = Raise e.
Proof.
  intros Hs Hcause. unfold main, load_schema. rewrite Hs.
  destruct Hcause as [Ho | [text [Ho Hd]]]; rewrite Ho; cbn [bind];
    [| rewrite Hd]; reflexivity.
Qed.

Lemma schema_failure_aborts_main_witness :
  main careful_decoders locked_fs
    (mkNamespace (mkPath "app.json" ".json") (Some (mkPath "schema.json" ".json")) false)
  = Raise (OSError "Permission denied").
Proof.
  apply (schema_failure_aborts_main careful_decoders locked_fs
           (mkNamespace (mkPath "app.json" ".json")
                        (Some (mkPath "schema.json" ".json")) false)
           (mkPath "schema.json" ".json")).
  - reflexivity.
  - left. reflexivity.
Defined.


